(** * Solidarity Activism Hub: the logic of [src/App.jsx]

    A shallow embedding of the non-presentational part of the React
    component [SolidarityMediaHub]: the formatter utilities, the two
    request handlers [fetchMetadata] and [downloadMedia] and the two export
    handlers [downloadMetadataJSON] and [downloadMetadataCSV].

    Modelling conventions.
    - A JavaScript string is the list of its UTF-16 code units ([jstring]).
    - A JavaScript value is a [jsval]; the numbers of the model are the
      integers that a double holds exactly, up to 2^53 in absolute value
      (the numeric fields of the metadata are counts and seconds).  Where
      the code computes on them in doubles and the result is not an
      integer, the progress of a download, the rounding is modelled
      ([Double]); the properties that depend on the range say so.
    - [ToString] throws on an object that has a property [toString] of
      its own ([converts], [toText]).
    - A handler is a computation in a small writer/exception monad [M]: it
      emits the calls it makes to the outside (React state setters, [fetch],
      the click on a download link) as a trace of [effect]s and either
      returns or throws a message.  Whatever the outside answers (the HTTP
      response, the chunks of its body, the clock) is an argument of the
      handler.  [console.log] calls are not part of the model. *)

From Stdlib Require Import List ZArith NArith Bool Ascii String Lia.
From Stdlib Require Import DecimalString DecimalPos Sorted.
From Stdlib Require Import QArith Qround Qpower Lqa.
From Stdlib.Init Require Import Byte.
Import ListNotations.

Local Open Scope Z_scope.

(** ** Strings *)

Module JsString.

(** A string is a sequence of UTF-16 code units. *)
Definition jstring := list N.

(** A literal of the source, all of whose characters are ASCII. *)
Definition lit (s : string) : jstring :=
  map N_of_ascii (list_ascii_of_string s).

Fixpoint eqb (a b : jstring) : bool :=
  match a, b with
  | [], [] => true
  | x :: a', y :: b' => N.eqb x y && eqb a' b'
  | _, _ => false
  end.

(** [WhiteSpace] and [LineTerminator] of ECMAScript: what
    [String.prototype.trim] strips and [parseInt] skips. *)
Definition is_ws (c : N) : bool :=
  ((9 <=? c) && (c <=? 13) || (c =? 32) || (c =? 160) || (c =? 5760)
   || (8192 <=? c) && (c <=? 8202) || (c =? 8232) || (c =? 8233)
   || (c =? 8239) || (c =? 8287) || (c =? 12288) || (c =? 65279))%N.

Fixpoint trimStart (s : jstring) : jstring :=
  match s with
  | c :: s' => if is_ws c then trimStart s' else s
  | [] => []
  end.

Definition trimEnd (s : jstring) : jstring := rev (trimStart (rev s)).

(** [s.trim()] *)
Definition trim (s : jstring) : jstring := trimEnd (trimStart s).

(** [parts.join(sep)] on an array of strings *)
Fixpoint join (sep : jstring) (parts : list jstring) : jstring :=
  match parts with
  | [] => []
  | [p] => p
  | p :: rest => p ++ sep ++ join sep rest
  end.

(** [s.replace(/Q/g, QQ)] where Q is the double-quote character (code
    unit 34): every double quote is doubled. *)
Fixpoint double_quotes (s : jstring) : jstring :=
  match s with
  | [] => []
  | c :: s' => if (c =? 34)%N then 34%N :: 34%N :: double_quotes s'
               else c :: double_quotes s'
  end.

(** [s.padStart(2, '0')] *)
Definition padStart2 (s : jstring) : jstring :=
  match s with
  | [] => [48%N; 48%N]
  | [c] => [48%N; c]
  | _ => s
  end.

(** [Number::toString] on an integer (radix 10): its digits.  Exact up to
    2^53 in absolute value, the integers that doubles hold one by one;
    beyond, JavaScript writes the shortest digits that read back as the
    same double. *)
Definition of_Z (z : Z) : jstring :=
  lit (NilZero.string_of_int (Z.to_int z)).

End JsString.
Import JsString.

Local Set Warnings "-register-all".

(** ** Values *)

(** The values the component handles: the results of [JSON.parse], plus
    [undefined].  A [JObj] lists the own properties of an object in the
    order in which JavaScript enumerates them.  A [JNum z] is the number
    [z], an integer that a double holds exactly (at most 2^53 in absolute
    value); other numbers are outside the model. *)
Inductive jsval : Type :=
| JUndef
| JNull
| JBool (b : bool)
| JNum (z : Z)
| JStr (s : jstring)
| JArr (items : list jsval)
| JObj (fields : list (jstring * jsval)).

(** [ToBoolean]: what [!v], [v || w] and [if (v)] test. *)
Definition truthy (v : jsval) : bool :=
  match v with
  | JUndef | JNull => false
  | JBool b => b
  | JNum z => negb (z =? 0)
  | JStr s => match s with [] => false | _ => true end
  | JArr _ | JObj _ => true
  end.

(** [v || w] *)
Definition js_or (v w : jsval) : jsval := if truthy v then v else w.

(** The text that [ToString] gives for a value on which it does not
    throw (see [converts] and [toText] below for the values on which it
    does). *)
Fixpoint ToString (v : jsval) : jstring :=
  match v with
  | JUndef => lit "undefined"
  | JNull => lit "null"
  | JBool true => lit "true"
  | JBool false => lit "false"
  | JNum z => of_Z z
  | JStr s => s
  | JArr items =>
      join (lit ",")
        (map (fun x => match x with
                       | JUndef | JNull => []
                       | _ => ToString x
                       end) items)
  | JObj _ => lit "[object Object]"
  end.

(** An object has an own property of that name. *)
Definition own (k : string) (fields : list (jstring * jsval)) : bool :=
  existsb (fun kv => JsString.eqb (fst kv) (lit k)) fields.

(** [ToString] does not throw.  An object that [JSON.parse] built is
    converted by [Object.prototype.toString] unless it has an own
    property [toString]: a value from JSON is never a function, the
    inherited [valueOf] returns the object itself, and the conversion
    ends in a [TypeError].  An array joins the conversions of its
    elements. *)
Fixpoint converts (v : jsval) : bool :=
  match v with
  | JArr items => forallb converts items
  | JObj fields => negb (own "toString" fields)
  | _ => true
  end.

Fixpoint lookup (k : jstring) (fields : list (jstring * jsval)) : jsval :=
  match fields with
  | [] => JUndef
  | (k', v) :: rest => if JsString.eqb k k' then v else lookup k rest
  end.

(** [v.k] on a value that is neither [null] nor [undefined], for a property
    name [k] that no built-in prototype defines (every name the component
    reads is one: title, platform, error, ...). *)
Definition prop (v : jsval) (k : string) : jsval :=
  match v with
  | JObj fields => lookup (lit k) fields
  | _ => JUndef
  end.

(** [v?.k] *)
Definition opt_prop (v : jsval) (k : string) : jsval :=
  match v with
  | JUndef | JNull => JUndef
  | _ => prop v k
  end.

(** ** JSON.stringify *)

Module Json.

Definition hex_digit (n : N) : N :=
  (if n <? 10 then 48 + n else 87 + n)%N.

(** The escape [\uXXXX] of a code unit, in lower-case hexadecimal. *)
Definition uescape (c : N) : jstring :=
  [92; 117; hex_digit (c / 4096 mod 16); hex_digit (c / 256 mod 16);
   hex_digit (c / 16 mod 16); hex_digit (c mod 16)]%N.

Definition is_high (c : N) : bool := ((55296 <=? c) && (c <=? 56319))%N.
Definition is_low (c : N) : bool := ((56320 <=? c) && (c <=? 57343))%N.

(** The body of [QuoteJSONString]: the two-character escapes, [\u00XX]
    for the other control characters and for lone surrogates. *)
Fixpoint escape (s : jstring) : jstring :=
  match s with
  | [] => []
  | c :: s' =>
      if (c =? 8)%N then lit "\b" ++ escape s'
      else if (c =? 9)%N then lit "\t" ++ escape s'
      else if (c =? 10)%N then lit "\n" ++ escape s'
      else if (c =? 12)%N then lit "\f" ++ escape s'
      else if (c =? 13)%N then lit "\r" ++ escape s'
      else if (c =? 34)%N then [92; 34]%N ++ escape s'
      else if (c =? 92)%N then [92; 92]%N ++ escape s'
      else if (c <? 32)%N then uescape c ++ escape s'
      else if is_high c then
        match s' with
        | d :: s'' => if is_low d then c :: d :: escape s''
                      else uescape c ++ escape s'
        | [] => uescape c
        end
      else if is_low c then uescape c ++ escape s'
      else c :: escape s'
  end.

Definition quote (s : jstring) : jstring := 34%N :: escape s ++ [34%N].

Definition nl : jstring := [10%N].

Section Serialize.

(** The indentation unit: [JSON.stringify(v, null, 2)] has two spaces,
    [JSON.stringify(v)] the empty string. *)
Variable gap : jstring.

Definition wrap (opening closing indent : jstring) (parts : list jstring)
  : jstring :=
  match parts with
  | [] => opening ++ closing
  | _ =>
      match gap with
      | [] => opening ++ join (lit ",") parts ++ closing
      | _ =>
          let inner := indent ++ gap in
          opening ++ nl ++ inner ++ join (lit "," ++ nl ++ inner) parts
            ++ nl ++ indent ++ closing
      end
  end.

Definition member (k : jstring) (text : jstring) : jstring :=
  quote k ++ lit ":" ++ match gap with [] => [] | _ => lit " " end ++ text.

(** [SerializeJSONProperty]: [None] is the [undefined] result, which
    drops a property from an object and becomes [null] in an array. *)
Fixpoint serialize (indent : jstring) (v : jsval) : option jstring :=
  match v with
  | JUndef => None
  | JNull => Some (lit "null")
  | JBool true => Some (lit "true")
  | JBool false => Some (lit "false")
  | JNum z => Some (of_Z z)
  | JStr s => Some (quote s)
  | JArr items =>
      Some (wrap (lit "[") (lit "]") indent
              (map (fun x => match serialize (indent ++ gap) x with
                             | Some t => t
                             | None => lit "null"
                             end) items))
  | JObj fields =>
      Some (wrap (lit "{") (lit "}") indent
              (flat_map (fun kv => match serialize (indent ++ gap) (snd kv) with
                                   | Some t => [member (fst kv) t]
                                   | None => []
                                   end) fields))
  end.

End Serialize.

Definition spaces (n : nat) : jstring := repeat 32%N n.

(** [JSON.stringify(v)] and [JSON.stringify(v, null, n)] for [n <= 10];
    used as a string, an [undefined] result reads [undefined]. *)
Definition stringify (v : jsval) (n : nat) : jstring :=
  match serialize (spaces n) [] v with
  | Some t => t
  | None => lit "undefined"
  end.

End Json.

(** ** Effects, and the monad of a handler *)

(** What a [Blob] holds: the bytes of its parts in order.  A string part is
    kept as text together with the declared MIME type. *)
Inductive blob : Type :=
| BlobBytes (bytes : list byte)
| BlobText (text : jstring) (mime : string).

(** [new Blob(chunks)] on an array of [Uint8Array]s. *)
Definition Blob_of_chunks (chunks : list (list byte)) : blob :=
  BlobBytes (List.concat chunks).

Inductive effect : Type :=
| SetMediaUrl (v : jstring)
| SetSolidarityName (v : jstring)
| SetMetadata (v : jsval)
| SetLoading (b : bool)
| SetDownloading (b : bool)
| SetProgress (p : Z)
| SetError (msg : jstring)
| SetSuccess (msg : jstring)
| Fetch (url : jstring) (body : jstring)       (* a POST request is sent *)
| SaveFile (name : jstring) (content : blob).  (* a download link is clicked *)

(** The outcome of an operation that may throw: every exception the
    component meets is an [Error] object, read through its [message]. *)
Inductive result (A : Type) : Type :=
| Ok (a : A)
| Throw (message : jstring).
Arguments Ok {A} a.
Arguments Throw {A} message.

Definition M (A : Type) : Type := (list effect * result A)%type.

Definition ret {A} (a : A) : M A := ([], Ok a).

Definition bind {A B} (m : M A) (f : A -> M B) : M B :=
  match m with
  | (t, Ok a) => let (t', r) := f a in (t ++ t', r)
  | (t, Throw e) => (t, Throw e)
  end.

Definition emit (e : effect) : M unit := ([e], Ok tt).

Definition throw {A} (message : jstring) : M A := ([], Throw message).

(** An awaited promise: it resolves to a value or rejects. *)
Definition await {A} (r : result A) : M A := ([], r).

Declare Scope js_scope.
Delimit Scope js_scope with js.
Notation "x <- m ;; k" := (bind m (fun x => k))
  (at level 61, m at next level, right associativity) : js_scope.
Notation "m ;; k" := (bind m (fun _ => k))
  (at level 61, right associativity) : js_scope.
Local Open Scope js_scope.

(** [try { body } catch (err) { handler(err.message) } finally { fin }] *)
Definition try_catch_finally (body : M unit) (handler : jstring -> M unit)
    (fin : M unit) : M unit :=
  match body with
  | (t, Ok _) => (t, Ok tt) ;; fin
  | (t, Throw e) =>
      match ((t, Ok tt) ;; handler e) with
      | (t', Ok _) => (t', Ok tt) ;; fin
      | (t', Throw e') => (t', Ok tt) ;; fin ;; throw e'
      end
  end.

Definition trace {A} (m : M A) : list effect := fst m.
Definition outcome {A} (m : M A) : result A := snd m.

(** ** The state of the component *)

Record state : Type := mkState {
  mediaUrl : jstring;
  metadata : jsval;
  loading : bool;
  downloading : bool;
  progress : Z;
  error : jstring;
  success : jstring;
  solidarityName : jstring
}.

(** The [useState] initial values. *)
Definition initial : state :=
  {| mediaUrl := []; metadata := JNull; loading := false;
     downloading := false; progress := 0; error := []; success := [];
     solidarityName := [] |}.

Definition apply (s : state) (e : effect) : state :=
  match e with
  | SetMediaUrl v =>
      mkState v (metadata s) (loading s) (downloading s) (progress s)
        (error s) (success s) (solidarityName s)
  | SetSolidarityName v =>
      mkState (mediaUrl s) (metadata s) (loading s) (downloading s)
        (progress s) (error s) (success s) v
  | SetMetadata v =>
      mkState (mediaUrl s) v (loading s) (downloading s) (progress s)
        (error s) (success s) (solidarityName s)
  | SetLoading b =>
      mkState (mediaUrl s) (metadata s) b (downloading s) (progress s)
        (error s) (success s) (solidarityName s)
  | SetDownloading b =>
      mkState (mediaUrl s) (metadata s) (loading s) b (progress s)
        (error s) (success s) (solidarityName s)
  | SetProgress p =>
      mkState (mediaUrl s) (metadata s) (loading s) (downloading s) p
        (error s) (success s) (solidarityName s)
  | SetError msg =>
      mkState (mediaUrl s) (metadata s) (loading s) (downloading s)
        (progress s) msg (success s) (solidarityName s)
  | SetSuccess msg =>
      mkState (mediaUrl s) (metadata s) (loading s) (downloading s)
        (progress s) (error s) msg (solidarityName s)
  | Fetch _ _ | SaveFile _ _ => s
  end.

(** The state once the setter calls of a trace have been applied. *)
Definition run (s : state) (t : list effect) : state := fold_left apply t s.

(** Observations on a trace. *)
Definition is_fetch (e : effect) : bool :=
  match e with Fetch _ _ => true | _ => false end.

Definition requests (t : list effect) : list (jstring * jstring) :=
  flat_map (fun e => match e with Fetch u b => [(u, b)] | _ => [] end) t.

Definition saved_files (t : list effect) : list (jstring * blob) :=
  flat_map (fun e => match e with SaveFile n c => [(n, c)] | _ => [] end) t.

Definition progress_reports (t : list effect) : list Z :=
  flat_map (fun e => match e with SetProgress p => [p] | _ => [] end) t.

(** The calls a handler makes before it sends its request. *)
Fixpoint before_request (t : list effect) : list effect :=
  match t with
  | [] => []
  | e :: t' => if is_fetch e then [] else e :: before_request t'
  end.

(** ** The HTTP side *)

(** The body of a response as the reader delivers it: the chunks, then
    either [done] or a rejected read. *)
Record body_stream : Type := {
  chunks : list (list byte);
  ending : result unit
}.

Record response : Type := {
  status : Z;                        (* response.status *)
  content_length : option jstring;   (* headers.get('content-length') *)
  json : result jsval;               (* response.json(): rejects on a body that is not JSON *)
  body : option body_stream          (* response.body, null on a response without a body *)
}.

(** [response.ok]: the status is in the range 200-299. *)
Definition ok (r : response) : bool := (200 <=? status r) && (status r <=? 299).

(** ** Number helpers *)

Definition is_digit (c : N) : bool := ((48 <=? c) && (c <=? 57))%N.

(** The value of the longest prefix of decimal digits, and whether there is
    one. *)
Fixpoint digits_prefix (s : jstring) (acc : Z) (seen : bool) : option Z :=
  match s with
  | c :: s' =>
      if is_digit c then digits_prefix s' (10 * acc + (Z.of_N c - 48)) true
      else if seen then Some acc else None
  | [] => if seen then Some acc else None
  end.

(** [parseInt(input, 10)] on what [headers.get] returns, a string or
    [null]; [None] is [NaN].  ([null] is first converted to the string
    [null], which has no digits.)  The result is the integer that the
    digits write; the code has the double nearest to it, the same number
    up to 2^53. *)
Definition parseInt10 (input : option jstring) : option Z :=
  match input with
  | None => None
  | Some s =>
      match trimStart s with
      | 45%N :: r => option_map Z.opp (digits_prefix r 0 false)
      | 43%N :: r => digits_prefix r 0 false
      | r => digits_prefix r 0 false
      end
  end.

(** [if (total)] on a number: false on [NaN] and on zero. *)
Definition known (total : option Z) : bool :=
  match total with
  | Some t => negb (t =? 0)
  | None => false
  end.

(** *** Double precision

    [loaded / total] and the product by 100 are operations on doubles:
    each returns the double nearest to the exact result, a tie going to
    the even mantissa.  A double is kept here as the rational it stands
    for. *)
Module Double.

Definition two_pow (e : Z) : Q := Qpower 2 e.

(** A power of two that brings every positive normal double above 1. *)
Definition bias : Z := 1100.

(** The exponent [e] of the double nearest to [x]: the mantissa
    [x / 2^e] lies in [[2^52, 2^53)]. *)
Definition exponent (x : Q) : Z :=
  Z.log2 (Qfloor (x * two_pow bias)) - bias - 52.

(** The nearest integer, a tie going to the even one. *)
Definition rne (x : Q) : Z :=
  let f := Qfloor x in
  match Qcompare (2 * (x - inject_Z f)) 1 with
  | Lt => f
  | Gt => f + 1
  | Eq => if Z.even f then f else f + 1
  end.

(** The double nearest to a positive [x] (for a result in the normal
    range of doubles, from 2^-1022 to 2^1024, where every result of the
    component lies). *)
Definition round_pos (x : Q) : Q :=
  if Qle_bool 1 (x * two_pow bias)
  then (inject_Z (rne (x / two_pow (exponent x))) * two_pow (exponent x))%Q
  else 0%Q.

Definition round (x : Q) : Q :=
  match Qcompare x 0 with
  | Gt => round_pos x
  | Eq => 0%Q
  | Lt => (- round_pos (- x))%Q
  end.

(** The unit round-off, 2^-53: the relative error of a rounding is at
    most this. *)
Definition unit_roundoff : Q := 1 # 9007199254740992.

End Double.

(** [Math.round((loaded / total) * 100)]: the quotient and the product
    are rounded to doubles, and [Math.round] gives the nearest integer, a
    half going up.  [loaded] and [total] are integers that doubles hold
    exactly (below 2^53). *)
Definition stage (x : Q) : Z :=
  Qfloor (Double.round (Double.round x * 100) + (1 # 2))%Q.

Definition percent (loaded total : Z) : Z :=
  stage (inject_Z loaded / inject_Z total)%Q.

Definition blen (chunk : list byte) : Z := Z.of_nat (List.length chunk).

(** ** Formatter utilities *)

Section Formatters.

(** [Number.prototype.toLocaleString] depends on the locale of the
    browser. *)
Variable toLocaleString : Z -> jstring.

Definition sizes : list string := ["Bytes"; "KB"; "MB"; "GB"]%string.

(** [x.toFixed(2)] for the non-negative rational [num / den]. *)
Definition toFixed2 (num den : Z) : jstring :=
  let n := (200 * num + den) / (2 * den) in
  of_Z (n / 100) ++ lit "." ++ padStart2 (of_Z (n mod 100)).

(** The formatters are applied to the optional numeric fields of the
    metadata.  [None]: the argument is a truthy value that is not a
    number, which this model does not cover.

    [formatFileSize]: the index [Math.floor(Math.log(bytes) /
    Math.log(1024))] is the integer part of the base-1024 logarithm for
    every size below 2^40; from 2^40 on the quotient of the two
    floating-point logarithms can reach the next integer early, so that
    the code's index is the model's or one more (either is beyond the
    table of units) and the mantissa follows the index. *)
Definition formatFileSize (bytes : jsval) : option jstring :=
  if negb (truthy bytes) then Some (lit "Unknown")
  else
    match bytes with
    | JNum z =>
        if z <? 0 then Some (lit "NaN undefined")
        else
          let i := Z.log2 z / 10 in
          Some (toFixed2 z (2 ^ (10 * i)) ++ lit " "
                ++ lit (nth (Z.to_nat i) sizes "undefined"%string))
    | _ => None
    end.

(** [formatDuration]: for a whole number of seconds below 2^53 the integer
    part of the double quotient [seconds / 60] is the integer quotient,
    and the remainder is exact; fractional or larger durations are not
    covered. *)
Definition formatDuration (seconds : jsval) : option jstring :=
  if negb (truthy seconds) then Some (lit "N/A")
  else
    match seconds with
    | JNum z =>
        let mins := z / 60 in
        let secs := Z.rem z 60 in
        Some (of_Z mins ++ lit ":" ++ padStart2 (of_Z secs))
    | _ => None
    end.

(** [parseInt(num)] writes the number as a text and reads its leading
    digits: for an integer up to 2^53 that is the integer itself.  (From
    10^21 on the text is in exponent notation and only its first digit is
    read; such counts are not covered.) *)
Definition formatNumber (num : jsval) : option jstring :=
  if negb (truthy num) then Some (lit "0")
  else
    match num with
    | JNum z => Some (toLocaleString z)
    | _ => None
    end.

End Formatters.

(** ** The handlers *)

Section Handlers.

(** [API_BASE_URL], chosen from the location of the page and the build
    environment. *)
Variable API_BASE_URL : jstring.

(** [v.k] where [v] may be [null] or [undefined]: a [TypeError] (the
    message is the one of V8). *)
Definition get (v : jsval) (k : string) : M jsval :=
  match v with
  | JUndef | JNull =>
      throw (lit "Cannot read properties of " ++ ToString v
             ++ lit " (reading '" ++ lit k ++ lit "')")
  | _ => ret (prop v k)
  end.

(** [ToString(v)] where it may throw: in a template literal and in
    [new Error(v)] (the message is the one of V8). *)
Definition toText (v : jsval) : M jstring :=
  if converts v then ret (ToString v)
  else throw (lit "Cannot convert object to primitive value").

(** [await fetch(url, { method: 'POST', ..., body })] *)
Definition fetch (url body : jstring) (net : result response) : M response :=
  emit (Fetch url body) ;; await net.

Definition fetchMetadata (s : state) (net : result response) : M unit :=
  if negb (truthy (JStr (trim (mediaUrl s)))) then
    emit (SetError (lit "Please enter a valid media URL"))
  else if negb (truthy (JStr (trim (solidarityName s)))) then
    emit (SetError (lit "Please enter the solidarity campaign name"))
  else
    emit (SetLoading true) ;;
    emit (SetError []) ;;
    emit (SetSuccess []) ;;
    emit (SetMetadata JNull) ;;
    try_catch_finally
      (response <- fetch (API_BASE_URL ++ lit "/metadata")
                     (Json.stringify
                        (JObj [(lit "url", JStr (trim (mediaUrl s)));
                               (lit "solidarity", JStr (trim (solidarityName s)))]) 0)
                     net ;;
       data <- await (json response) ;;
       (if negb (ok response) then
          e <- get data "error" ;;
          message <- toText (js_or e (JStr (lit "Failed to fetch metadata"))) ;;
          throw message
        else ret tt) ;;
       emit (SetMetadata data) ;;
       emit (SetSuccess (lit "Media information loaded successfully!")))
      (fun message => emit (SetError message))
      (emit (SetLoading false)).

(** The [while (true)] loop over [reader.read()]: [chunks] and [loaded]
    are the local variables of the same names. *)
Fixpoint read_loop (total : option Z) (incoming : list (list byte))
    (last : result unit) (chunks : list (list byte)) (loaded : Z)
  : M (list (list byte)) :=
  match incoming with
  | [] =>
      match last with
      | Ok _ => ret chunks
      | Throw e => throw e
      end
  | value :: incoming' =>
      let chunks := chunks ++ [value] in
      let loaded := loaded + blen value in
      (if known total then
         match total with
         | Some t => emit (SetProgress (percent loaded t))
         | None => ret tt
         end
       else ret tt) ;;
      read_loop total incoming' last chunks loaded
  end.

(** The two values that the template literal of [a.download] converts. *)
Definition name_title (s : state) : jsval :=
  js_or (opt_prop (metadata s) "title") (JStr (lit "media")).

Definition name_extension (s : state) : jsval :=
  js_or (opt_prop (metadata s) "extension") (JStr (lit "mp4")).

(** The name under which the artifact is offered, when both convert. *)
Definition artifact_name (s : state) : jstring :=
  solidarityName s ++ lit "_" ++ ToString (name_title s) ++ lit "."
  ++ ToString (name_extension s).

(** The template literal of [a.download]. *)
Definition download_name (s : state) : M jstring :=
  title <- toText (name_title s) ;;
  extension <- toText (name_extension s) ;;
  ret (solidarityName s ++ lit "_" ++ title ++ lit "." ++ extension).

Definition downloadMedia (s : state) (quality : jstring)
    (net : result response) : M unit :=
  emit (SetDownloading true) ;;
  emit (SetError []) ;;
  emit (SetProgress 0) ;;
  try_catch_finally
    (response <- fetch (API_BASE_URL ++ lit "/download")
                   (Json.stringify
                      (JObj [(lit "url", JStr (trim (mediaUrl s)));
                             (lit "solidarity", JStr (trim (solidarityName s)));
                             (lit "quality", JStr quality)]) 0)
                   net ;;
     (if negb (ok response) then
        data <- await (json response) ;;
        e <- get data "error" ;;
        message <- toText (js_or e (JStr (lit "Download failed"))) ;;
        throw message
      else ret tt) ;;
     let total := parseInt10 (content_length response) in
     stream <- match body response with
               | Some b => ret b
               | None => throw (lit "Cannot read properties of null (reading 'getReader')")
               end ;;
     chunks <- read_loop total (chunks stream) (ending stream) [] 0 ;;
     let blob := Blob_of_chunks chunks in
     name <- download_name s ;;
     emit (SaveFile name blob) ;;
     emit (SetSuccess (lit "Media archived successfully for the movement!")) ;;
     emit (SetProgress 100))
    (fun message => emit (SetError message))
    (emit (SetDownloading false)).

End Handlers.

(** ** Export of the metadata *)

(** The keys of the object that [downloadMetadataJSON] builds, in the order
    of the object literal. *)
Definition json_keys : list string :=
  ["solidarity_campaign"; "platform"; "title"; "uploader"; "url";
   "description"; "duration"; "viewCount"; "likeCount"; "thumbnail";
   "archived_at"]%string.

(** The object literal [data] of [downloadMetadataJSON]; [now] is
    [new Date().toISOString()]. *)
Definition json_data (s : state) (now : jstring) : M jsval :=
  let m := metadata s in
  platform <- get m "platform" ;;
  title <- get m "title" ;;
  uploader <- get m "uploader" ;;
  url <- get m "url" ;;
  description <- get m "description" ;;
  duration <- get m "duration" ;;
  viewCount <- get m "viewCount" ;;
  likeCount <- get m "likeCount" ;;
  thumbnail <- get m "thumbnail" ;;
  ret (JObj [(lit "solidarity_campaign", JStr (solidarityName s));
             (lit "platform", js_or platform (JStr (lit "unknown")));
             (lit "title", title);
             (lit "uploader", uploader);
             (lit "url", url);
             (lit "description", description);
             (lit "duration", duration);
             (lit "viewCount", viewCount);
             (lit "likeCount", likeCount);
             (lit "thumbnail", thumbnail);
             (lit "archived_at", JStr now)]).

Definition downloadMetadataJSON (s : state) (now : jstring) : M unit :=
  if negb (truthy (metadata s)) then ret tt
  else
    data <- json_data s now ;;
    let content := BlobText (Json.stringify data 2) "application/json" in
    platform <- get (metadata s) "platform" ;;
    platform' <- toText platform ;;
    emit (SaveFile (solidarityName s ++ lit "_" ++ platform'
                    ++ lit "_metadata.json") content).

Definition dq : jstring := [34%N].

(** [(metadata.title || Q).replace(...)], where Q is the empty string:
    only a string has the method (the message of the [TypeError] is the
    one of V8, which prints the expression with the empty string between
    double quotes). *)
Definition replace_quotes (v : jsval) : M jstring :=
  match v with
  | JStr t => ret (double_quotes t)
  | _ => throw (lit "(metadata.title || " ++ dq ++ dq
                ++ lit ").replace is not a function")
  end.

(** The labels of the rows of the CSV export. *)
Definition csv_labels : list string :=
  ["Solidarity Campaign"; "Platform"; "Title"; "Uploader"; "URL"; "Views";
   "Likes"; "Duration"; "Archived At"]%string.

(** The array of lines that [downloadMetadataCSV] joins, its elements
    evaluated in the order of the array literal. *)
Definition csv_lines (s : state) (now : jstring) : M (list jstring) :=
  let m := metadata s in
  platform <- get m "platform" ;;
  platform' <- toText (js_or platform (JStr (lit "unknown"))) ;;
  title <- get m "title" ;;
  title' <- replace_quotes (js_or title (JStr [])) ;;
  uploader <- get m "uploader" ;;
  uploader' <- toText (js_or uploader (JStr (lit "Unknown"))) ;;
  url <- get m "url" ;;
  url' <- toText url ;;
  viewCount <- get m "viewCount" ;;
  views <- toText (js_or viewCount (JNum 0)) ;;
  likeCount <- get m "likeCount" ;;
  likes <- toText (js_or likeCount (JNum 0)) ;;
  duration <- get m "duration" ;;
  duration' <- toText (js_or duration (JNum 0)) ;;
  ret [lit "Field,Value";
       lit "Solidarity Campaign," ++ dq ++ solidarityName s ++ dq;
       lit "Platform," ++ platform';
       lit "Title," ++ dq ++ title' ++ dq;
       lit "Uploader," ++ uploader';
       lit "URL," ++ url';
       lit "Views," ++ views;
       lit "Likes," ++ likes;
       lit "Duration," ++ duration';
       lit "Archived At," ++ now].

Definition downloadMetadataCSV (s : state) (now : jstring) : M unit :=
  if negb (truthy (metadata s)) then ret tt
  else
    lines <- csv_lines s now ;;
    let content := BlobText (join Json.nl lines) "text/csv" in
    platform <- get (metadata s) "platform" ;;
    platform' <- toText platform ;;
    emit (SaveFile (solidarityName s ++ lit "_" ++ platform'
                    ++ lit "_metadata.csv") content).

(** ** Reading a CSV text back

    The reader against which the CSV export is judged.  It reads the
    format that the export writes: the records are separated by line
    feeds (a carriage return is a character like any other), the fields
    of a record by commas; a field is either bare, and ends at the next
    comma or line feed, or quoted, in which case it ends at a quote that
    is not doubled and a doubled quote stands for one quote.  [field] is
    the text of the field
    being read, most recent character first; [row] are the fields of the
    current record, most recent first. *)
Module Csv.

Inductive mode : Type :=
| FieldStart    (* at the first character of a field *)
| Bare          (* inside a field without quotes *)
| Quoted        (* inside a quoted field *)
| QuoteSeen.    (* after a quote inside a quoted field *)

Definition close_field (field : jstring) (row : list jstring) : list jstring :=
  rev field :: row.

Fixpoint read (md : mode) (field : jstring) (row : list jstring)
    (input : jstring) : list (list jstring) :=
  match input with
  | [] => [rev (close_field field row)]
  | c :: rest =>
      match md with
      | Quoted =>
          if (c =? 34)%N then read QuoteSeen field row rest
          else read Quoted (c :: field) row rest
      | _ =>
          if (c =? 34)%N then
            match md with
            | FieldStart => read Quoted field row rest
            | QuoteSeen => read Quoted (c :: field) row rest
            | _ => read Bare (c :: field) row rest
            end
          else if (c =? 44)%N then read FieldStart [] (close_field field row) rest
          else if (c =? 10)%N then
            rev (close_field field row) :: read FieldStart [] [] rest
          else read Bare (c :: field) row rest
      end
  end.

(** The records of a CSV text, each the list of its fields. *)
Definition parse (text : jstring) : list (list jstring) :=
  read FieldStart [] [] text.

End Csv.

(** ** The view

    What the user can do on the rendered page, one action after the other
    (an action is taken once the previous one has run to its end).  The
    download and export buttons are rendered only while [metadata] is
    truthy; the fetch button is disabled while [loading] and the download
    button while [downloading]; the Enter key in the URL field calls
    [fetchMetadata] directly. *)
Inductive action : Type :=
| ChangeName (v : jstring)
| ChangeUrl (v : jstring)
| PressEnter (net : result response)
| ClickFetch (net : result response)
| ClickDownload (net : result response)
| ClickExportJSON (now : jstring)
| ClickExportCSV (now : jstring).

Definition act (api : jstring) (s : state) (a : action) : list effect :=
  match a with
  | ChangeName v => [SetSolidarityName v]
  | ChangeUrl v => [SetMediaUrl v]
  | PressEnter net => trace (fetchMetadata api s net)
  | ClickFetch net =>
      if loading s then [] else trace (fetchMetadata api s net)
  | ClickDownload net =>
      if truthy (metadata s) && negb (downloading s)
      then trace (downloadMedia api s (lit "best") net)
      else []
  | ClickExportJSON now =>
      if truthy (metadata s) then trace (downloadMetadataJSON s now) else []
  | ClickExportCSV now =>
      if truthy (metadata s) then trace (downloadMetadataCSV s now) else []
  end.

(** The calls made during a session, and the state it ends in. *)
Fixpoint session (api : jstring) (s : state) (actions : list action)
  : list effect * state :=
  match actions with
  | [] => ([], s)
  | a :: rest =>
      let t := act api s a in
      let (t', s') := session api (run s t) rest in
      (t ++ t', s')
  end.

(** ** The vocabulary of the properties

    Observations on the run of a handler, the traces and tables that the
    handlers are proved to produce, and sample data. *)

(** The values of [loaded] after each chunk. *)
Fixpoint received (loaded : Z) (incoming : list (list byte)) : list Z :=
  match incoming with
  | [] => []
  | value :: incoming' =>
      (loaded + blen value) :: received (loaded + blen value) incoming'
  end.

Definition total_bytes (incoming : list (list byte)) : Z :=
  fold_right (fun value n => blen value + n) 0 incoming.

(** The setter calls of the loop. *)
Definition loop_trace (total : option Z) (loaded : Z)
    (incoming : list (list byte)) : list effect :=
  match total with
  | Some t =>
      if known total
      then map (fun l => SetProgress (percent l t)) (received loaded incoming)
      else []
  | None => []
  end.

(** The message of the [TypeError] of a failed conversion. *)
Definition conversion_error : jstring :=
  lit "Cannot convert object to primitive value".

(** The name of the artifact can be formed. *)
Definition name_converts (s : state) : bool :=
  converts (name_title s) && converts (name_extension s).

(** What [downloadMedia] does once the response has arrived with a success
    status and a body. *)
Definition download_tail (s : state) (b : body_stream) : list effect :=
  match ending b with
  | Ok _ =>
      if name_converts s then
        [SaveFile (artifact_name s) (Blob_of_chunks (chunks b));
         SetSuccess (lit "Media archived successfully for the movement!");
         SetProgress 100]
      else [SetError conversion_error]
  | Throw e => [SetError e]
  end.

Definition download_request (api : jstring) (s : state) (quality : jstring)
  : effect :=
  Fetch (api ++ lit "/download")
    (Json.stringify
       (JObj [(lit "url", JStr (trim (mediaUrl s)));
              (lit "solidarity", JStr (trim (solidarityName s)));
              (lit "quality", JStr quality)]) 0).

(** The per-chunk progress values. *)
Definition chunk_reports (total : option Z) (incoming : list (list byte))
  : list Z :=
  match total with
  | Some t =>
      if known total then map (fun l => percent l t) (received 0 incoming)
      else []
  | None => []
  end.

(** Sample data: a state after a successful metadata fetch, and responses. *)
Module Sample.

Definition api : jstring := lit "http://localhost:5000/api".

Definition rally : jsval :=
  JObj [(lit "title", JStr (lit "Rally"));
        (lit "uploader", JStr (lit "ActivistOrg"));
        (lit "viewCount", JNum 1500)].

Definition fetched : state :=
  {| mediaUrl := lit "https://example.com/v/1";
     metadata := rally;
     loading := false; downloading := false; progress := 0;
     error := [];
     success := lit "Media information loaded successfully!";
     solidarityName := lit "Climate Justice" |}.

Definition filled : state :=
  {| mediaUrl := lit "https://example.com/v/1";
     metadata := JNull;
     loading := false; downloading := false; progress := 0;
     error := []; success := [];
     solidarityName := lit "Climate Justice" |}.

(** A state whose metadata has a title that [ToString] rejects. *)
Definition unnameable : state :=
  {| mediaUrl := lit "https://example.com/v/1";
     metadata := JObj [(lit "title", JObj [(lit "toString", JNum 1)])];
     loading := false; downloading := false; progress := 0;
     error := [];
     success := lit "Media information loaded successfully!";
     solidarityName := lit "Climate Justice" |}.

Definition zeros (n : Z) : list byte := repeat x00 (Z.to_nat n).

(** A resource of 8 bytes in chunks of 5 and 3. *)
Definition eight : body_stream :=
  {| chunks := [zeros 5; zeros 3]; ending := Ok tt |}.

(** A resource of 40 bytes in chunks of 23 and 17. *)
Definition uneven : body_stream :=
  {| chunks := [zeros 23; zeros 17]; ending := Ok tt |}.

(** A resource of 10000 bytes in seven chunks of uneven size. *)
Definition seven : body_stream :=
  {| chunks := [zeros 1000; zeros 24; zeros 4096; zeros 1; zeros 2879;
                zeros 0; zeros 2000];
     ending := Ok tt |}.

Definition media (len : option jstring) (b : body_stream) : response :=
  {| status := 200; content_length := len;
     json := Throw (lit "Unexpected token"); body := Some b |}.

(** The answer of the metadata endpoint for the sample. *)
Definition found : response :=
  {| status := 200; content_length := None; json := Ok rally; body := None |}.

Definition failure (code : Z) (payload : result jsval) : response :=
  {| status := code; content_length := None; json := payload;
     body := Some {| chunks := []; ending := Ok tt |} |}.

End Sample.

Definition in_range (p : Z) : Prop := 0 <= p <= 100.

(** [p] is the percentage [100 * l / t] rounded to the nearest integer,
    up to the error of the two roundings to doubles (for a total below
    2^43 that error is too small to count, and [p] is one of the integers
    nearest to the exact percentage). *)
Definition nearest_percent (l t p : Z) : Prop :=
  2 * Z.abs (p * t - 100 * l) <= t + t / 2 ^ 43.

(** The report that closes a download: 100 once the last chunk has been
    read and the file has been offered; nothing when a read fails or the
    name of the file cannot be formed. *)
Definition final_report (s : state) (b : body_stream) : list Z :=
  match ending b with
  | Ok _ => if name_converts s then [100] else []
  | Throw _ => []
  end.

(** The numbers of a download are integers that doubles hold exactly: the
    bytes received and the declared length do not go beyond 2^53. *)
Definition exact_counts (total : option Z) (b : body_stream) : Prop :=
  total_bytes (chunks b) <= 2 ^ 53
  /\ match total with
     | Some t => Z.abs t <= 2 ^ 53
     | None => True
     end.

(** The declared length is usable as a total: it is positive, at most
    2^53 (so that [parseInt] reads it exactly) and the body does not hold
    more bytes than it says. *)
Definition covers (total : option Z) (b : body_stream) : Prop :=
  match total with
  | Some t =>
      known total = true -> 0 < t <= 2 ^ 53 /\ total_bytes (chunks b) <= t
  | None => True
  end.

(** A value whose conversion to a text the model follows to the letter:
    [ToString] does not throw on it, and every number that the text shows
    is an integer that a double holds exactly.  (The numbers inside an
    object do not show.) *)
Fixpoint textual (v : jsval) : bool :=
  match v with
  | JNum z => Z.abs z <=? 2 ^ 53
  | JArr items => forallb textual items
  | JObj fields => negb (own "toString" fields)
  | _ => true
  end.

(** The message with which a non-success response is turned into an error:
    [new Error(data.error || generic).message]. *)
Definition reported (data : jsval) (generic : string) : jstring :=
  ToString (js_or (prop data "error") (JStr (lit generic))).

(** Values on which a property can be read. *)
Definition has_properties (v : jsval) : bool :=
  match v with
  | JUndef | JNull => false
  | _ => true
  end.

(** What the [catch] block receives on a non-success response. *)
Definition failure_message (r : response) (generic : string) : jstring :=
  match json r with
  | Throw e => e
  | Ok data =>
      if has_properties data then
        if converts (js_or (prop data "error") (JStr (lit generic)))
        then reported data generic
        else conversion_error
      else lit "Cannot read properties of " ++ ToString data
           ++ lit " (reading '" ++ lit "error" ++ lit "')"
  end.

Definition download_conclusion (s : state) (net : result response)
  : list effect :=
  match net with
  | Throw e => [SetError e]
  | Ok r =>
      if ok r then
        match body r with
        | Some b =>
            loop_trace (parseInt10 (content_length r)) 0 (chunks b)
            ++ download_tail s b
        | None =>
            [SetError (lit "Cannot read properties of null (reading 'getReader')")]
        end
      else [SetError (failure_message r "Download failed")]
  end.

Definition metadata_request (api : jstring) (s : state) : effect :=
  Fetch (api ++ lit "/metadata")
    (Json.stringify
       (JObj [(lit "url", JStr (trim (mediaUrl s)));
              (lit "solidarity", JStr (trim (solidarityName s)))]) 0).

Definition metadata_conclusion (net : result response) : list effect :=
  match net with
  | Throw e => [SetError e]
  | Ok r =>
      match json r with
      | Throw e => [SetError e]
      | Ok data =>
          if ok r then
            [SetMetadata data;
             SetSuccess (lit "Media information loaded successfully!")]
          else [SetError (failure_message r "Failed to fetch metadata")]
      end
  end.

(** Both inputs hold something besides white space. *)
Definition validated (s : state) : Prop :=
  trim (mediaUrl s) <> [] /\ trim (solidarityName s) <> [].

(** The properties of the object literal [data]. *)
Definition json_fields (s : state) (now : jstring) : list (jstring * jsval) :=
  let m := metadata s in
  [(lit "solidarity_campaign", JStr (solidarityName s));
   (lit "platform", js_or (prop m "platform") (JStr (lit "unknown")));
   (lit "title", prop m "title");
   (lit "uploader", prop m "uploader");
   (lit "url", prop m "url");
   (lit "description", prop m "description");
   (lit "duration", prop m "duration");
   (lit "viewCount", prop m "viewCount");
   (lit "likeCount", prop m "likeCount");
   (lit "thumbnail", prop m "thumbnail");
   (lit "archived_at", JStr now)].

Definition defined (v : jsval) : bool :=
  match v with
  | JUndef => false
  | _ => true
  end.

(** The properties that are written: those whose value is not
    [undefined]. *)
Definition present (fields : list (jstring * jsval)) : list (jstring * jsval) :=
  filter (fun kv => defined (snd kv)) fields.

(** The text of a value one level inside the top-level object. *)
Definition value_text (v : jsval) : jstring :=
  match Json.serialize (Json.spaces 2) (Json.spaces 2) v with
  | Some t => t
  | None => lit "null"
  end.

(** The properties that [downloadMetadataJSON] copies as they are. *)
Definition passed_through : list string :=
  ["title"; "uploader"; "url"; "description"; "duration"; "viewCount";
   "likeCount"; "thumbnail"]%string.

(** An optional text field and an optional numeric field of the metadata:
    missing ([undefined] or [null]) or of the right type, a number being
    an integer that a double holds exactly. *)
Definition is_text (v : jsval) : bool :=
  match v with
  | JUndef | JNull | JStr _ => true
  | _ => false
  end.

Definition is_count (v : jsval) : bool :=
  match v with
  | JUndef | JNull => true
  | JNum z => Z.abs z <=? 2 ^ 53
  | _ => false
  end.

(** A well-formed [MediaMetadata]: an object whose fields, where it has
    them, are of the type the data model gives them. *)
Definition well_formed (m : jsval) : bool :=
  match m with
  | JObj _ =>
      forallb (fun k => is_text (prop m k))
        ["title"; "uploader"; "url"; "platform"; "description"; "thumbnail"]%string
      && forallb (fun k => is_count (prop m k))
           ["duration"; "viewCount"; "likeCount"; "size"]%string
  | _ => false
  end.

Definition missing (v : jsval) : Prop := v = JUndef \/ v = JNull.

Definition text_of (v : jsval) : jstring :=
  match v with
  | JStr t => t
  | _ => []
  end.

(** The rows of the table: label and text of the value cell. *)
Definition csv_table (s : state) (now : jstring) : list (string * jstring) :=
  let m := metadata s in
  [("Solidarity Campaign"%string, dq ++ solidarityName s ++ dq);
   ("Platform"%string, ToString (js_or (prop m "platform") (JStr (lit "unknown"))));
   ("Title"%string, dq ++ double_quotes (text_of (prop m "title")) ++ dq);
   ("Uploader"%string, ToString (js_or (prop m "uploader") (JStr (lit "Unknown"))));
   ("URL"%string, ToString (prop m "url"));
   ("Views"%string, ToString (js_or (prop m "viewCount") (JNum 0)));
   ("Likes"%string, ToString (js_or (prop m "likeCount") (JNum 0)));
   ("Duration"%string, ToString (js_or (prop m "duration") (JNum 0)));
   ("Archived At"%string, now)].


Fixpoint cell (label : string) (table : list (string * jstring)) : jstring :=
  match table with
  | [] => []
  | (l, v) :: rest => if String.eqb label l then v else cell label rest
  end.

Definition saved_texts (t : list effect) : list jstring :=
  flat_map (fun e => match e with
                     | SaveFile _ (BlobText text _) => [text]
                     | _ => []
                     end) t.

(** ** Outcomes of a request

    The answers of the network after which a handler goes through to its
    last statement. *)

(** A metadata fetch ends well: a success status and a body that is JSON. *)
Definition fetch_succeeds (net : result response) : bool :=
  match net with
  | Ok r => ok r && match json r with Ok _ => true | Throw _ => false end
  | Throw _ => false
  end.

(** A download ends well: a success status, a body, and every read up to
    [done] fulfilled. *)
Definition download_completes (net : result response) : bool :=
  match net with
  | Ok r =>
      ok r && match body r with
              | Some b => match ending b with Ok _ => true | Throw _ => false end
              | None => false
              end
  | Throw _ => false
  end.

(** The metadata that a session can end up showing: the answer of a fetch
    that succeeded with a truthy value. *)
Definition shows_metadata (net : result response) : bool :=
  match net with
  | Ok r => ok r && match json r with Ok data => truthy data | Throw _ => false end
  | Throw _ => false
  end.

(** An action that cannot bring metadata on screen. *)
Definition fruitless (a : action) : Prop :=
  match a with
  | PressEnter net | ClickFetch net => shows_metadata net = false
  | _ => True
  end.


Definition is_string (v : jsval) : bool :=
  match v with
  | JStr _ => true
  | _ => false
  end.

(** The two endpoints. *)
Definition endpoint (api : jstring) (url : jstring) : Prop :=
  url = api ++ lit "/metadata" \/ url = api ++ lit "/download".


(** ** Cells of a CSV text *)





(** ** The address of the service *)

(** [s.startsWith(prefix)] *)
Fixpoint startsWith (s prefix : jstring) {struct prefix} : bool :=
  match prefix, s with
  | [], _ => true
  | p :: prefix', c :: s' => (c =? p)%N && startsWith s' prefix'
  | _ :: _, [] => false
  end.

(** [isLocal] in [getApiBaseUrl], on [window.location.hostname]. *)
Definition isLocal (hostname : jstring) : bool :=
  JsString.eqb hostname (lit "localhost")
  || JsString.eqb hostname (lit "127.0.0.1")
  || startsWith hostname (lit "192.168.").

(** [getApiBaseUrl()]; [VITE_API_URL] is [import.meta.env.VITE_API_URL]. *)
Definition getApiBaseUrl (hostname : jstring) (VITE_API_URL : jsval) : jsval :=
  if isLocal hostname then JStr (lit "http://localhost:5000")
  else if truthy VITE_API_URL then VITE_API_URL
  else JStr (lit "https://solidarity-media-api.onrender.com").

(** The template literal that defines [API_BASE_URL]. *)
Definition API_BASE_URL (hostname : jstring) (VITE_API_URL : jsval) : jstring :=
  ToString (getApiBaseUrl hostname VITE_API_URL) ++ lit "/api".

(** ** The guarded parts of the page *)

(** What React puts on the page for a child [{v && block}]: the block when
    [v] is truthy, the digits of [v] when [v] is a falsy number, and
    nothing when [v] is [false], [null], [undefined] or the empty
    string.  Of a block only the text that a formatter contributes is
    kept. *)
Inductive shown : Type :=
| Hidden
| Digits (text : jstring)
| Block (formatted : option jstring).

Definition and_block (v : jsval) (formatted : option jstring) : shown :=
  if truthy v then Block formatted
  else
    match v with
    | JNum z => Digits (of_Z z)
    | _ => Hidden
    end.

Section Page.

Variable toLocaleString : Z -> jstring.

(** [{metadata.viewCount && (... formatNumber(metadata.viewCount) ...)}] and
    its three siblings. *)
Definition views_card (m : jsval) : shown :=
  and_block (prop m "viewCount") (formatNumber toLocaleString (prop m "viewCount")).

Definition likes_card (m : jsval) : shown :=
  and_block (prop m "likeCount") (formatNumber toLocaleString (prop m "likeCount")).

Definition duration_card (m : jsval) : shown :=
  and_block (prop m "duration") (formatDuration (prop m "duration")).

Definition size_info (m : jsval) : shown :=
  and_block (prop m "size") (formatFileSize (prop m "size")).

End Page.

(** ** Digits *)

(** The value of a run of decimal digits read after [acc]. *)
Fixpoint uint_value (d : Decimal.uint) (acc : Z) : Z :=
  match d with
  | Decimal.Nil => acc
  | Decimal.D0 d => uint_value d (10 * acc + 0)
  | Decimal.D1 d => uint_value d (10 * acc + 1)
  | Decimal.D2 d => uint_value d (10 * acc + 2)
  | Decimal.D3 d => uint_value d (10 * acc + 3)
  | Decimal.D4 d => uint_value d (10 * acc + 4)
  | Decimal.D5 d => uint_value d (10 * acc + 5)
  | Decimal.D6 d => uint_value d (10 * acc + 6)
  | Decimal.D7 d => uint_value d (10 * acc + 7)
  | Decimal.D8 d => uint_value d (10 * acc + 8)
  | Decimal.D9 d => uint_value d (10 * acc + 9)
  end.

(** The two digits of a number below 100. *)
Definition two_digits (r : Z) : jstring :=
  [Z.to_N (48 + r / 10); Z.to_N (48 + r mod 10)].

(** * Properties *)

(** ** Checks of the model on small inputs *)

Example trim_example : trim (lit "  a b ") = lit "a b".
Proof. reflexivity. Qed.

Example of_Z_example : of_Z 0 = lit "0" /\ of_Z (-15) = lit "-15" /\ of_Z 1500 = lit "1500".
Proof. repeat split. Qed.

Example stringify_example :
  Json.stringify (JObj [(lit "a", JNum 1); (lit "b", JUndef);
                        (lit "c", JArr [JStr (lit "x"); JUndef])]) 2
  = join Json.nl
      [lit "{";
       lit "  " ++ Json.quote (lit "a") ++ lit ": 1,";
       lit "  " ++ Json.quote (lit "c") ++ lit ": [";
       lit "    " ++ Json.quote (lit "x") ++ lit ",";
       lit "    null";
       lit "  ]";
       lit "}"].
Proof. reflexivity. Qed.

Example stringify_compact :
  Json.stringify (JObj [(lit "url", JStr (lit "a\b")); (lit "n", JNull)]) 0
  = lit "{" ++ Json.quote (lit "url") ++ lit ":"
    ++ [34%N] ++ lit "a\\b" ++ [34%N] ++ lit ","
    ++ Json.quote (lit "n") ++ lit ":null}".
Proof. reflexivity. Qed.

Example formatDuration_125 : formatDuration (JNum 125) = Some (lit "2:05").
Proof. reflexivity. Qed.

Example formatFileSize_1536 : formatFileSize (JNum 1536) = Some (lit "1.50 KB").
Proof. reflexivity. Qed.

Example csv_parse_example :
  Csv.parse (lit "Field,Value" ++ Json.nl ++ lit "Title," ++ dq ++ lit "a,"
             ++ dq ++ dq ++ lit "b" ++ dq)
  = [[lit "Field"; lit "Value"]; [lit "Title"; lit "a," ++ dq ++ lit "b"]].
Proof. reflexivity. Qed.

Arguments lit : simpl never.
Arguments Json.stringify : simpl never.
Arguments trim : simpl never.

(** ** The read loop of [downloadMedia] *)

Lemma read_loop_eq total incoming last acc loaded :
  read_loop total incoming last acc loaded
  = (loop_trace total loaded incoming,
     match last with
     | Ok _ => Ok (acc ++ incoming)
     | Throw e => Throw e
     end).
Proof.
  revert acc loaded.
  induction incoming as [|value incoming IH]; intros acc loaded.
  - simpl. rewrite app_nil_r.
    destruct last; destruct total as [t|]; simpl;
      try destruct (negb (t =? 0)); reflexivity.
  - cbn [read_loop]. rewrite IH. rewrite <- app_assoc. simpl.
    unfold loop_trace.
    destruct total as [t|]; simpl; [destruct (negb (t =? 0)); simpl|];
      destruct last; reflexivity.
Qed.

Lemma download_name_eq s :
  download_name s
  = if name_converts s then ([], Ok (artifact_name s))
    else ([], Throw conversion_error).
Proof.
  unfold download_name, name_converts, artifact_name, toText.
  destruct (converts (name_title s)); [|reflexivity].
  destruct (converts (name_extension s)); reflexivity.
Qed.

Lemma downloadMedia_streamed api s quality r b :
  ok r = true -> body r = Some b ->
  downloadMedia api s quality (Ok r)
  = ([SetDownloading true; SetError []; SetProgress 0;
      download_request api s quality]
     ++ loop_trace (parseInt10 (content_length r)) 0 (chunks b)
     ++ download_tail s b ++ [SetDownloading false],
     Ok tt).
Proof.
  intros Hok Hbody.
  unfold downloadMedia, fetch, download_tail, download_request.
  cbn [bind emit await ret app try_catch_finally].
  rewrite Hok, Hbody. cbn [negb bind ret app].
  rewrite read_loop_eq, download_name_eq.
  destruct (ending b); [destruct (name_converts s)|];
    cbn [bind emit ret app throw try_catch_finally];
    rewrite ?app_nil_r, <- ?app_assoc; reflexivity.
Qed.

Lemma saved_files_app t1 t2 :
  saved_files (t1 ++ t2) = saved_files t1 ++ saved_files t2.
Proof. apply flat_map_app. Qed.

Lemma progress_reports_app t1 t2 :
  progress_reports (t1 ++ t2) = progress_reports t1 ++ progress_reports t2.
Proof. apply flat_map_app. Qed.

Lemma requests_app t1 t2 : requests (t1 ++ t2) = requests t1 ++ requests t2.
Proof. apply flat_map_app. Qed.

Lemma run_app s t1 t2 : run s (t1 ++ t2) = run (run s t1) t2.
Proof. apply fold_left_app. Qed.

(** The loop only ever calls [setProgress]. *)
Lemma loop_trace_only_progress total loaded incoming :
  saved_files (loop_trace total loaded incoming) = []
  /\ requests (loop_trace total loaded incoming) = [].
Proof.
  unfold loop_trace. destruct total as [t|]; [|split; reflexivity].
  destruct (known (Some t)); [|split; reflexivity].
  generalize (received loaded incoming) as ls.
  induction ls as [|l ls [IH1 IH2]]; split; simpl; auto.
Qed.

Lemma progress_reports_loop total incoming :
  progress_reports (loop_trace total 0 incoming) = chunk_reports total incoming.
Proof.
  unfold loop_trace, chunk_reports. destruct total as [t|]; [|reflexivity].
  destruct (known (Some t)); [|reflexivity].
  generalize (received 0 incoming) as ls.
  induction ls as [|l ls IH]; simpl; [reflexivity | now rewrite <- IH].
Qed.

(** *** C1 *)

(** C1.  Whatever chunks the reader delivers before it reports [done], the
    blob that is assembled holds the bytes of those chunks concatenated in
    the order of arrival: any two ways of cutting one byte stream into
    chunks give the same artifact.  That blob is the one file offered to
    the user, and it is offered exactly when the name of the file can be
    formed (the template literal of [a.download] comes after the blob and
    before [a.click()]; it throws when the title or the extension of the
    metadata is an object with a property [toString] of its own). *)
Theorem download_artifact_is_concatenation
    api s quality r b (bytes : list byte) :
  ok r = true ->
  body r = Some b ->
  ending b = Ok tt ->
  List.concat (chunks b) = bytes ->
  outcome (parts <- read_loop (parseInt10 (content_length r))
                      (chunks b) (ending b) [] 0 ;;
           ret (Blob_of_chunks parts))
  = Ok (BlobBytes bytes)
  /\ map snd (saved_files (trace (downloadMedia api s quality (Ok r))))
     = if name_converts s then [BlobBytes bytes] else [].
Proof.
  intros Hok Hbody Hend Hbytes. split.
  { rewrite read_loop_eq, Hend. unfold outcome, Blob_of_chunks.
    cbn [bind ret snd app]. now rewrite Hbytes. }
  rewrite (downloadMedia_streamed api s quality r b Hok Hbody).
  unfold trace, download_tail. cbn [fst]. rewrite Hend.
  change (?a :: ?b :: ?c :: ?d :: ?l) with ([a; b; c; d] ++ l).
  rewrite !saved_files_app.
  destruct (loop_trace_only_progress (parseInt10 (content_length r)) 0 (chunks b))
    as [-> _].
  unfold Blob_of_chunks. rewrite Hbytes.
  destruct (name_converts s); reflexivity.
Qed.

(** The scenario of a successful metadata fetch: the state holds the object
    that the endpoint returned, unchanged. *)
Example scenario_metadata_fetch :
  snd (session Sample.api initial
         [ChangeName (lit "Climate Justice");
          ChangeUrl (lit "https://example.com/v/1");
          ClickFetch (Ok Sample.found)])
  = Sample.fetched.
Proof. vm_compute. reflexivity. Qed.

(** The scenario of a download of 10000 bytes in seven uneven chunks with
    Content-Length 10000: the progress ends at 100 and the artifact has
    exactly 10000 bytes. *)
Example scenario_download :
  let t := trace (downloadMedia Sample.api Sample.fetched (lit "best")
                    (Ok (Sample.media (Some (lit "10000")) Sample.seven))) in
  progress (run Sample.fetched t) = 100
  /\ map (fun f => match snd f with
                   | BlobBytes bytes => blen bytes
                   | BlobText _ _ => -1
                   end) (saved_files t) = [10000].
Proof. vm_compute. split; reflexivity. Qed.

Lemma download_artifact_is_concatenation_witness :
  map snd
    (saved_files
       (trace (downloadMedia Sample.api Sample.fetched (lit "best")
                 (Ok (Sample.media (Some (lit "10000")) Sample.seven)))))
  = [BlobBytes (Sample.zeros 10000)].
Proof.
  change [BlobBytes (Sample.zeros 10000)]
    with (if name_converts Sample.fetched
          then [BlobBytes (Sample.zeros 10000)] else []).
  refine (proj2 (download_artifact_is_concatenation Sample.api Sample.fetched
                   (lit "best") (Sample.media (Some (lit "10000")) Sample.seven)
                   Sample.seven (Sample.zeros 10000) _ _ _ _));
    vm_compute; reflexivity.
Defined.

(** The name under which the sample is offered. *)
Example scenario_download_name :
  map fst
    (saved_files
       (trace (downloadMedia Sample.api Sample.fetched (lit "best")
                 (Ok (Sample.media (Some (lit "10000")) Sample.seven)))))
  = [lit "Climate Justice_Rally.mp4"].
Proof. vm_compute. reflexivity. Qed.

(** A title that cannot be converted to a text: the body is read to its
    end, no file is offered and the [TypeError] is what the user sees. *)
Example scenario_download_unnameable :
  let t := trace (downloadMedia Sample.api Sample.unnameable (lit "best")
                    (Ok (Sample.media (Some (lit "10000")) Sample.seven))) in
  saved_files t = []
  /\ error (run Sample.unnameable t)
     = lit "Cannot convert object to primitive value"
  /\ progress (run Sample.unnameable t) = 100.
Proof. vm_compute. repeat split; reflexivity. Qed.

(** *** C2 *)

Lemma blen_nonneg value : 0 <= blen value.
Proof. unfold blen. lia. Qed.

Lemma total_bytes_nonneg incoming : 0 <= total_bytes incoming.
Proof.
  induction incoming as [|value incoming IH]; simpl; [lia|].
  pose proof (blen_nonneg value). lia.
Qed.

(** ** Rounding to a double *)

Module DoubleFacts.
Import Double.
Local Open Scope Q_scope.

Lemma two_pow_pos e : 0 < two_pow e.
Proof. apply Qpower_0_lt. reflexivity. Qed.

Lemma two_pow_add a b : two_pow (a + b) == two_pow a * two_pow b.
Proof. apply Qpower_plus. discriminate. Qed.

Lemma two_pow_le a b : (a <= b)%Z -> two_pow a <= two_pow b.
Proof. intros H. apply Qpower_le_compat_l; [exact H | discriminate]. Qed.

Lemma two_pow_Z n : (0 <= n)%Z -> two_pow n == inject_Z (2 ^ n).
Proof. intros H. unfold two_pow. now rewrite Zpower_Qpower. Qed.

Lemma two_pow_cancel a : two_pow a * two_pow (- a) == 1.
Proof. rewrite <- two_pow_add, Z.add_opp_diag_r. reflexivity. Qed.

(** [x / 2^e <= k] and [k <= x / 2^e] without the division. *)
Lemma div_two_pow_le x e k : x <= k * two_pow e -> x / two_pow e <= k.
Proof. intros H. apply Qle_shift_div_r; [apply two_pow_pos | exact H]. Qed.

Lemma le_div_two_pow x e k : k * two_pow e <= x -> k <= x / two_pow e.
Proof. intros H. apply Qle_shift_div_l; [apply two_pow_pos | exact H]. Qed.

Lemma div_two_pow_mono x y e : x <= y -> x / two_pow e <= y / two_pow e.
Proof.
  intros H. apply Qmult_le_compat_r; [exact H|].
  apply Qlt_le_weak, Qinv_lt_0_compat, two_pow_pos.
Qed.

Lemma exponent_spec x :
  1 <= x * two_pow bias ->
  two_pow (exponent x + 52) <= x /\ x < two_pow (exponent x + 53).
Proof.
  intros H1. unfold exponent.
  set (F := Qfloor (x * two_pow bias)).
  assert (HF : (1 <= F)%Z).
  { change 1%Z with (Qfloor 1). now apply Qfloor_resp_le. }
  destruct (Z.log2_spec F ltac:(lia)) as [Hlo Hhi].
  pose proof (Z.log2_nonneg F) as HL.
  set (L := Z.log2 F) in *.
  pose proof (Qfloor_le (x * two_pow bias)) as Hfl. fold F in Hfl.
  pose proof (Qlt_floor (x * two_pow bias)) as Hlt. fold F in Hlt.
  pose proof (two_pow_pos (- bias)) as Hp.
  pose proof (two_pow_cancel bias) as Hc.
  assert (Hx : x == x * two_pow bias * two_pow (- bias)).
  { rewrite <- Qmult_assoc, Hc. ring. }
  split.
  - replace (L - bias - 52 + 52)%Z with (L + - bias)%Z by lia.
    rewrite two_pow_add, (two_pow_Z L HL), Hx.
    apply Qmult_le_compat_r; [|now apply Qlt_le_weak].
    eapply Qle_trans; [|exact Hfl]. rewrite <- Zle_Qle. exact Hlo.
  - replace (L - bias - 52 + 53)%Z with ((L + 1) + - bias)%Z by lia.
    rewrite two_pow_add, (two_pow_Z (L + 1)) by lia. rewrite Hx at 1.
    apply Qmult_lt_compat_r; [exact Hp|].
    eapply Qlt_le_trans; [exact Hlt|]. rewrite <- Zle_Qle.
    replace (Z.succ L) with (L + 1)%Z in Hhi by lia. lia.
Qed.

Lemma rne_bounds x : (Qfloor x <= rne x <= Qfloor x + 1)%Z.
Proof.
  unfold rne. destruct (Qcompare _ _); [destruct (Z.even _)|..]; lia.
Qed.

Lemma rne_ge k x : inject_Z k <= x -> (k <= rne x)%Z.
Proof.
  intros H. pose proof (rne_bounds x).
  assert (k <= Qfloor x)%Z; [|lia].
  rewrite <- (Qfloor_Z k). now apply Qfloor_resp_le.
Qed.

Lemma rne_le k x : x <= inject_Z k -> (rne x <= k)%Z.
Proof.
  intros H. pose proof (rne_bounds x) as Hb.
  assert (Hf : (Qfloor x <= k)%Z).
  { rewrite <- (Qfloor_Z k). now apply Qfloor_resp_le. }
  destruct (Z.eq_dec (Qfloor x) k) as [E|]; [|lia].
  unfold rne. rewrite E.
  destruct (Qcompare (2 * (x - inject_Z k)) 1) eqn:C; [|lia|].
  - apply (proj2 (Qeq_alt _ _)) in C. exfalso. lra.
  - apply (proj2 (Qgt_alt _ _)) in C. exfalso. lra.
Qed.

Lemma rne_mono x y : x <= y -> (rne x <= rne y)%Z.
Proof.
  intros H. pose proof (Qfloor_resp_le _ _ H) as Hf.
  pose proof (rne_bounds x). pose proof (rne_bounds y).
  destruct (Z.eq_dec (Qfloor x) (Qfloor y)) as [E|]; [|lia].
  unfold rne. rewrite <- E. set (f := Qfloor x).
  destruct (Qcompare (2 * (x - inject_Z f)) 1) eqn:Cx;
    destruct (Qcompare (2 * (y - inject_Z f)) 1) eqn:Cy;
    try apply (proj2 (Qeq_alt _ _)) in Cx; try apply (proj2 (Qlt_alt _ _)) in Cx;
    try apply (proj2 (Qgt_alt _ _)) in Cx;
    try apply (proj2 (Qeq_alt _ _)) in Cy; try apply (proj2 (Qlt_alt _ _)) in Cy;
    try apply (proj2 (Qgt_alt _ _)) in Cy;
    try (destruct (Z.even f)); try lia; exfalso; lra.
Qed.

Lemma round_pos_nonneg x : 0 <= x -> 0 <= round_pos x.
Proof.
  intros Hx. unfold round_pos.
  destruct (Qle_bool 1 (x * two_pow bias)); [|apply Qle_refl].
  apply Qmult_le_0_compat; [|apply Qlt_le_weak, two_pow_pos].
  change 0 with (inject_Z 0). rewrite <- Zle_Qle. apply rne_ge.
  apply le_div_two_pow. change (inject_Z 0) with 0. lra.
Qed.

Lemma round_pos_mono x y : 0 <= x -> x <= y -> round_pos x <= round_pos y.
Proof.
  intros Hx Hxy. unfold round_pos at 1.
  destruct (Qle_bool 1 (x * two_pow bias)) eqn:Bx;
    [|apply round_pos_nonneg; lra].
  apply Qle_bool_iff in Bx.
  pose proof (two_pow_pos bias) as Hb.
  assert (By : 1 <= y * two_pow bias).
  { eapply Qle_trans; [exact Bx|]. apply Qmult_le_compat_r; lra. }
  unfold round_pos. rewrite (proj2 (Qle_bool_iff _ _) By).
  destruct (exponent_spec x Bx) as [Hxl Hxh].
  destruct (exponent_spec y By) as [Hyl Hyh].
  set (ex := exponent x) in *. set (ey := exponent y) in *.
  assert (Hexy : (ex <= ey)%Z).
  { destruct (Z.le_gt_cases ex ey) as [|Hgt]; [assumption|exfalso].
    pose proof (two_pow_le (ey + 53) (ex + 52) ltac:(lia)). lra. }
  pose proof (two_pow_pos ex) as Hpx. pose proof (two_pow_pos ey) as Hpy.
  destruct (Z.eq_dec ex ey) as [E|Hne].
  - rewrite <- E. apply Qmult_le_compat_r; [|now apply Qlt_le_weak].
    rewrite <- Zle_Qle. apply rne_mono. now apply div_two_pow_mono.
  - apply Qle_trans with (two_pow (ex + 53)).
    + rewrite Z.add_comm, two_pow_add, (two_pow_Z 53) by lia.
      apply Qmult_le_compat_r; [|now apply Qlt_le_weak].
      rewrite <- Zle_Qle. apply rne_le. apply div_two_pow_le.
      rewrite <- (two_pow_Z 53), <- two_pow_add by lia.
      rewrite Z.add_comm. now apply Qlt_le_weak.
    + apply Qle_trans with (two_pow (ey + 52)); [apply two_pow_le; lia|].
      rewrite Z.add_comm, two_pow_add, (two_pow_Z 52) by lia.
      apply Qmult_le_compat_r; [|now apply Qlt_le_weak].
      rewrite <- Zle_Qle. apply rne_ge. apply le_div_two_pow.
      rewrite <- (two_pow_Z 52), <- two_pow_add by lia.
      now rewrite Z.add_comm.
Qed.

Lemma round_nonneg_eq x : 0 <= x -> round x == round_pos x.
Proof.
  intros Hx. unfold round. destruct (Qcompare x 0) eqn:C.
  - apply Qeq_alt in C. unfold round_pos.
    destruct (Qle_bool 1 (x * two_pow bias)) eqn:B; [|reflexivity].
    apply Qle_bool_iff in B. rewrite C in B. exfalso. lra.
  - apply Qlt_alt in C. exfalso. lra.
  - reflexivity.
Qed.

(** Rounding to a double is monotone (on the non-negative numbers). *)
Lemma round_mono x y : 0 <= x -> x <= y -> round x <= round y.
Proof.
  intros Hx Hxy. rewrite (round_nonneg_eq x), (round_nonneg_eq y) by lra.
  now apply round_pos_mono.
Qed.

Lemma round_nonneg x : 0 <= x -> 0 <= round x.
Proof.
  intros Hx. rewrite (round_nonneg_eq x Hx). now apply round_pos_nonneg.
Qed.

Lemma round_0 : round 0 == 0.
Proof. reflexivity. Qed.

Lemma round_1 : round 1 == 1.
Proof. vm_compute. reflexivity. Qed.

Lemma round_100 : round 100 == 100.
Proof. vm_compute. reflexivity. Qed.

End DoubleFacts.

Section Percent.
Import Double DoubleFacts.
Local Open Scope Q_scope.

Variable t : Z.
Hypothesis t_pos : (0 < t)%Z.

Lemma ratio_bounds l : (0 <= l)%Z -> 0 <= inject_Z l / inject_Z t.
Proof.
  intros Hl. apply Qle_shift_div_l.
  - change 0 with (inject_Z 0). rewrite <- Zlt_Qlt. exact t_pos.
  - rewrite Qmult_0_l. change 0 with (inject_Z 0). now rewrite <- Zle_Qle.
Qed.

Lemma ratio_mono a b :
  (a <= b)%Z -> inject_Z a / inject_Z t <= inject_Z b / inject_Z t.
Proof.
  intros Hab. apply Qmult_le_compat_r.
  - now rewrite <- Zle_Qle.
  - apply Qlt_le_weak, Qinv_lt_0_compat.
    change 0 with (inject_Z 0). rewrite <- Zlt_Qlt. exact t_pos.
Qed.

Lemma ratio_full : inject_Z t / inject_Z t == 1.
Proof.
  apply Qmult_inv_r. intros E.
  assert (inject_Z 0 < inject_Z t) by (rewrite <- Zlt_Qlt; exact t_pos).
  rewrite E in H. discriminate.
Qed.

Lemma stage_mono x y : 0 <= x -> x <= y -> (stage x <= stage y)%Z.
Proof.
  intros Hx Hxy. unfold stage. apply Qfloor_resp_le.
  assert (H1 : round x <= round y) by now apply round_mono.
  pose proof (round_nonneg x Hx) as H0.
  assert (H2 : round (round x * 100) <= round (round y * 100)).
  { apply round_mono; lra. }
  lra.
Qed.

Lemma stage_0 : stage 0 = 0%Z.
Proof. vm_compute. reflexivity. Qed.

Lemma stage_1 : stage 1 = 100%Z.
Proof. vm_compute. reflexivity. Qed.

Lemma percent_stage l : percent l t = stage (inject_Z l / inject_Z t).
Proof. reflexivity. Qed.

Lemma percent_mono a b : (0 <= a)%Z -> (a <= b)%Z -> (percent a t <= percent b t)%Z.
Proof.
  intros Ha Hab. rewrite !percent_stage.
  apply stage_mono; [now apply ratio_bounds | now apply ratio_mono].
Qed.

Lemma percent_zero : percent 0 t = 0%Z.
Proof.
  rewrite percent_stage. apply Z.le_antisymm.
  - rewrite <- stage_0 at 2. apply stage_mono; [apply ratio_bounds; lia|].
    unfold Qdiv. rewrite Qmult_0_l. apply Qle_refl.
  - rewrite <- stage_0 at 1. apply stage_mono; [apply Qle_refl|].
    apply ratio_bounds. lia.
Qed.

Lemma percent_full : percent t t = 100%Z.
Proof.
  rewrite percent_stage. pose proof ratio_full as E. apply Z.le_antisymm.
  - rewrite <- stage_1. apply stage_mono; [apply ratio_bounds; lia|].
    rewrite E. apply Qle_refl.
  - rewrite <- stage_1. apply stage_mono; [lra|]. rewrite E. apply Qle_refl.
Qed.

Lemma percent_in_range l : (0 <= l <= t)%Z -> in_range (percent l t).
Proof.
  unfold in_range.
  intros [H0 H1]. split.
  - rewrite <- percent_zero. apply percent_mono; lia.
  - rewrite <- percent_full. apply percent_mono; lia.
Qed.

End Percent.

(** ** The error of the roundings *)

Module DoubleError.
Import Double DoubleFacts.
Local Open Scope Q_scope.

Lemma rne_near x :
  inject_Z (rne x) - (1 # 2) <= x /\ x <= inject_Z (rne x) + (1 # 2).
Proof.
  unfold rne. cbv zeta.
  pose proof (Qfloor_le x) as Hlo. pose proof (Qlt_floor x) as Hhi.
  rewrite inject_Z_plus in Hhi. change (inject_Z 1) with 1 in Hhi.
  destruct (Qcompare (2 * (x - inject_Z (Qfloor x))) 1) eqn:C.
  - apply (proj2 (Qeq_alt _ _)) in C.
    destruct (Z.even (Qfloor x)); rewrite ?inject_Z_plus;
      change (inject_Z 1) with 1; lra.
  - apply (proj2 (Qlt_alt _ _)) in C. lra.
  - apply (proj2 (Qgt_alt _ _)) in C. rewrite inject_Z_plus.
    change (inject_Z 1) with 1. lra.
Qed.

Lemma normal x : two_pow (-60) <= x -> 1 <= x * two_pow bias.
Proof.
  intros H.
  assert (H1 : 1 <= two_pow (-60) * two_pow bias).
  { rewrite <- two_pow_add. change 1 with (two_pow 0).
    apply two_pow_le. unfold bias. lia. }
  eapply Qle_trans; [exact H1|].
  apply Qmult_le_compat_r; [exact H|]. apply Qlt_le_weak, two_pow_pos.
Qed.

Lemma round_pos_near x :
  1 <= x * two_pow bias ->
  x * (1 - unit_roundoff) <= round_pos x
  /\ round_pos x <= x * (1 + unit_roundoff).
Proof.
  intros Hn. unfold round_pos.
  destruct (Qle_bool 1 (x * two_pow bias)) eqn:E;
    [|apply Qle_bool_iff in Hn; congruence].
  destruct (exponent_spec x Hn) as [Hlo _].
  set (e := exponent x) in *.
  pose proof (two_pow_pos e) as Hp.
  rewrite two_pow_add in Hlo.
  assert (H52 : two_pow 52 == 4503599627370496) by reflexivity.
  rewrite H52 in Hlo.
  destruct (rne_near (x / two_pow e)) as [H1 H2].
  assert (Hx : x / two_pow e * two_pow e == x).
  { field. intros E0. rewrite E0 in Hp. discriminate. }
  set (y := x / two_pow e) in *. set (N := inject_Z (rne y)) in *.
  set (P := two_pow e) in *. unfold unit_roundoff.
  assert (Ha : N * P <= y * P + (1 # 2) * P) by nra.
  assert (Hb : y * P - (1 # 2) * P <= N * P) by nra.
  split; lra.
Qed.

Lemma round_near x :
  1 <= x * two_pow bias ->
  x * (1 - unit_roundoff) <= round x /\ round x <= x * (1 + unit_roundoff).
Proof.
  intros Hn.
  assert (Hx : 0 <= x).
  { pose proof (two_pow_pos bias) as Hp.
    destruct (Qlt_le_dec x 0) as [Hneg|]; [|assumption].
    exfalso. assert (x * two_pow bias <= 0) by nra. lra. }
  rewrite (round_nonneg_eq x Hx). now apply round_pos_near.
Qed.

Lemma stage_near x :
  two_pow (-53) <= x -> x <= 1 ->
  100 * x * (1 - unit_roundoff) * (1 - unit_roundoff) - (1 # 2)
  < inject_Z (stage x)
  /\ inject_Z (stage x)
     <= 100 * x * (1 + unit_roundoff) * (1 + unit_roundoff) + (1 # 2).
Proof.
  intros Hlo Hhi. unfold stage.
  assert (H53 : two_pow (-53) == 1 # 9007199254740992) by reflexivity.
  assert (H60 : two_pow (-60) == 1 # 1152921504606846976) by reflexivity.
  destruct (round_near x) as [Ha1 Ha2].
  { apply normal. rewrite H60. rewrite H53 in Hlo. lra. }
  set (a := round x) in *.
  destruct (round_near (a * 100)) as [Hb1 Hb2].
  { apply normal. rewrite H60. rewrite H53 in Hlo.
    unfold unit_roundoff in *. lra. }
  set (b := round (a * 100)) in *.
  pose proof (Qfloor_le (b + (1 # 2))) as Hf1.
  pose proof (Qlt_floor (b + (1 # 2))) as Hf2.
  rewrite inject_Z_plus in Hf2. change (inject_Z 1) with 1 in Hf2.
  set (p := inject_Z (Qfloor (b + (1 # 2)))) in *.
  unfold unit_roundoff in *. split; lra.
Qed.

End DoubleError.

Section Nearest.
Import Double DoubleFacts DoubleError.
Local Open Scope Q_scope.

Lemma percent_near l t :
  (0 < t <= 2 ^ 53)%Z -> (0 <= l <= t)%Z ->
  nearest_percent l t (percent l t).
Proof.
  intros [Ht Ht53] [Hl0 Hlt]. unfold nearest_percent.
  destruct (Z.eq_dec l 0) as [->|Hne].
  - rewrite (percent_zero t Ht).
    pose proof (Z.div_pos t (2 ^ 43) ltac:(lia) ltac:(lia)). simpl. lia.
  - assert (HT : 0 < inject_Z t).
    { change 0 with (inject_Z 0). now rewrite <- Zlt_Qlt. }
    assert (HL : 1 <= inject_Z l).
    { change 1 with (inject_Z 1). rewrite <- Zle_Qle. lia. }
    assert (HLT : inject_Z l <= inject_Z t) by now rewrite <- Zle_Qle.
    assert (HT53 : inject_Z t <= 9007199254740992).
    { change 9007199254740992 with (inject_Z (2 ^ 53)). now rewrite <- Zle_Qle. }
    assert (Hx : inject_Z l / inject_Z t * inject_Z t == inject_Z l).
    { field. lra. }
    assert (H53 : two_pow (-53) == 1 # 9007199254740992) by reflexivity.
    destruct (stage_near (inject_Z l / inject_Z t)) as [H1 H2].
    { rewrite H53. apply Qle_shift_div_l; [exact HT|]. lra. }
    { apply Qle_shift_div_r; [exact HT|]. lra. }
    rewrite percent_stage.
    set (x := inject_Z l / inject_Z t) in *.
    set (p := stage x) in *.
    unfold unit_roundoff in *.
    assert (Hup : 8796093022208
                  * (2 * (inject_Z p * inject_Z t - 100 * inject_Z l)
                     - inject_Z t)
                  <= inject_Z t) by nra.
    assert (Hdn : 8796093022208
                  * (2 * (100 * inject_Z l - inject_Z p * inject_Z t)
                     - inject_Z t)
                  <= inject_Z t) by nra.
    assert (Hup' : (2 ^ 43 * (2 * (p * t - 100 * l) - t) <= t)%Z).
    { rewrite Zle_Qle. unfold Z.sub.
      repeat (rewrite inject_Z_mult || rewrite inject_Z_plus
              || rewrite inject_Z_opp).
      change (inject_Z (2 ^ 43)) with 8796093022208.
      change (inject_Z 2) with 2. change (inject_Z 100) with 100. lra. }
    assert (Hdn' : (2 ^ 43 * (2 * (100 * l - p * t) - t) <= t)%Z).
    { rewrite Zle_Qle. unfold Z.sub.
      repeat (rewrite inject_Z_mult || rewrite inject_Z_plus
              || rewrite inject_Z_opp).
      change (inject_Z (2 ^ 43)) with 8796093022208.
      change (inject_Z 2) with 2. change (inject_Z 100) with 100. lra. }
    apply Z.div_le_lower_bound in Hup'; [|lia].
    apply Z.div_le_lower_bound in Hdn'; [|lia].
    lia.
Qed.

End Nearest.

(** ** The quotient of a duration by 60 *)

Section Quotient.
Import Double DoubleFacts DoubleError.
Local Open Scope Q_scope.

Lemma Qfloor_unique (y : Q) (q : Z) :
  inject_Z q <= y -> y < inject_Z (q + 1) -> Qfloor y = q.
Proof.
  intros Hlo Hhi. apply Z.le_antisymm.
  - pose proof (Qfloor_le y) as H.
    assert (Hlt : inject_Z (Qfloor y) < inject_Z (q + 1)) by lra.
    rewrite <- Zlt_Qlt in Hlt. lia.
  - rewrite <- (Qfloor_Z q). now apply Qfloor_resp_le.
Qed.

(** A natural number below 2^53 is a double. *)
Lemma round_integer k :
  (0 <= k < 2 ^ 53)%Z -> round (inject_Z k) == inject_Z k.
Proof.
  intros [H0 H53].
  destruct (Z.eq_dec k 0) as [->|Hne]; [exact round_0|].
  assert (Hk : 1 <= inject_Z k).
  { change 1 with (inject_Z 1). rewrite <- Zle_Qle. lia. }
  assert (Hn : 1 <= inject_Z k * two_pow bias).
  { apply normal.
    assert (two_pow (-60) == 1 # 1152921504606846976) by reflexivity. lra. }
  rewrite round_nonneg_eq by lra. unfold round_pos.
  destruct (Qle_bool 1 (inject_Z k * two_pow bias)) eqn:E;
    [|apply Qle_bool_iff in Hn; congruence].
  destruct (exponent_spec _ Hn) as [Hlo _].
  set (e := exponent (inject_Z k)) in *.
  assert (He : (e <= 0)%Z).
  { destruct (Z.le_gt_cases e 0) as [|Hgt]; [assumption|exfalso].
    assert (Hp : two_pow 53 <= two_pow (e + 52)) by (apply two_pow_le; lia).
    assert (E53 : two_pow 53 == inject_Z (2 ^ 53)) by (apply two_pow_Z; lia).
    rewrite E53 in Hp.
    assert (Hle : inject_Z (2 ^ 53) <= inject_Z k) by lra.
    rewrite <- Zle_Qle in Hle. lia. }
  pose proof (two_pow_pos e) as Hp.
  pose proof (two_pow_cancel e) as Hc.
  pose proof (two_pow_Z (- e) ltac:(lia)) as Hz.
  assert (Hq : inject_Z k / two_pow e == inject_Z (k * 2 ^ (- e))).
  { rewrite inject_Z_mult, <- Hz.
    rewrite <- (Qmult_1_r (inject_Z k / two_pow e)), <- Hc. field. lra. }
  assert (Hr : rne (inject_Z k / two_pow e) = (k * 2 ^ (- e))%Z).
  { apply Z.le_antisymm; [apply rne_le | apply rne_ge]; rewrite Hq;
      apply Qle_refl. }
  rewrite Hr, inject_Z_mult, <- Hz.
  rewrite <- Qmult_assoc, (Qmult_comm (two_pow (- e))), Hc. ring.
Qed.

(** [Math.floor(seconds / 60)] on a whole number of seconds below 2^53:
    the double quotient has the integer part of the exact one. *)
Lemma floor_quotient_60 z :
  (0 <= z < 2 ^ 53)%Z -> Qfloor (round (inject_Z z / 60)) = (z / 60)%Z.
Proof.
  intros [H0 H53].
  pose proof (Z.div_mod z 60 ltac:(lia)) as Hdm.
  pose proof (Z.mod_pos_bound z 60 ltac:(lia)) as Hm.
  assert (Hq0 : (0 <= z / 60)%Z) by (apply Z.div_pos; lia).
  set (q := (z / 60)%Z) in *. set (r := (z mod 60)%Z) in *.
  assert (Hz : inject_Z z == 60 * inject_Z q + inject_Z r).
  { rewrite Hdm at 1. rewrite inject_Z_plus, inject_Z_mult. reflexivity. }
  assert (Hr0 : 0 <= inject_Z r).
  { change 0 with (inject_Z 0). rewrite <- Zle_Qle. lia. }
  assert (Hr59 : inject_Z r <= 59).
  { change 59 with (inject_Z 59). rewrite <- Zle_Qle. lia. }
  assert (Hq : 0 <= inject_Z q).
  { change 0 with (inject_Z 0). now rewrite <- Zle_Qle. }
  assert (Hz53 : inject_Z z <= 9007199254740991).
  { change 9007199254740991 with (inject_Z (2 ^ 53 - 1)).
    rewrite <- Zle_Qle. lia. }
  assert (Hx : inject_Z z / 60 * 60 == 60 * inject_Z q + inject_Z r).
  { rewrite <- Hz. field. }
  set (x := inject_Z z / 60) in *.
  apply Qfloor_unique.
  - rewrite <- (round_integer q) by lia. apply round_mono; [exact Hq|]. lra.
  - rewrite inject_Z_plus. change (inject_Z 1) with 1.
    destruct (Z.eq_dec z 0) as [Ez|Hne].
    + assert (E0 : inject_Z z == 0) by (rewrite Ez; reflexivity).
      assert (Hle : round x <= round 0) by (apply round_mono; lra).
      rewrite round_0 in Hle. lra.
    + assert (Hz1 : 1 <= inject_Z z).
      { change 1 with (inject_Z 1). rewrite <- Zle_Qle. lia. }
      destruct (round_near x) as [_ Hup].
      { apply normal.
        assert (two_pow (-60) == 1 # 1152921504606846976) by reflexivity.
        lra. }
      unfold unit_roundoff in Hup. lra.
Qed.

End Quotient.

Lemma hdrel_le_trans p q (l : list Z) :
  p <= q -> HdRel Z.le q l -> HdRel Z.le p l.
Proof.
  intros Hpq Hq. destruct Hq as [|x l Hx]; constructor. lia.
Qed.

Section Reports.

Variable t : Z.
Hypothesis t_pos : 0 < t.

(** What follows the per-chunk reports: nothing, or the final 100. *)
Variable final : list Z.
Hypothesis final_sorted : Sorted Z.le final.
Hypothesis final_above : HdRel Z.le 100 final.
Hypothesis final_in_range : Forall in_range final.

Lemma hdrel_below p : p <= 100 -> HdRel Z.le p final.
Proof using final_above.
  intros Hp. exact (hdrel_le_trans p 100 final Hp final_above).
Qed.

Lemma reports_sorted incoming : forall loaded p,
  0 <= loaded ->
  loaded + total_bytes incoming <= t ->
  p <= percent loaded t ->
  Sorted Z.le
    (p :: map (fun l => percent l t) (received loaded incoming) ++ final).
Proof using t_pos final_sorted final_above.
  induction incoming as [|value incoming IH]; intros loaded p H0 Hle Hp.
  - simpl. constructor; [exact final_sorted|].
    apply hdrel_below.
    pose proof (percent_in_range t t_pos loaded) as Hr.
    unfold in_range in Hr. simpl in Hle. lia.
  - simpl in *. pose proof (blen_nonneg value) as Hv.
    constructor.
    + apply IH; lia.
    + constructor. etransitivity; [exact Hp|].
      apply percent_mono; [exact t_pos | lia | lia].
Qed.

Lemma reports_in_range incoming : forall loaded,
  0 <= loaded ->
  loaded + total_bytes incoming <= t ->
  Forall in_range
    (map (fun l => percent l t) (received loaded incoming) ++ final).
Proof using t_pos final_in_range.
  induction incoming as [|value incoming IH]; intros loaded H0 Hle.
  - exact final_in_range.
  - simpl in *. pose proof (blen_nonneg value) as Hv.
    pose proof (total_bytes_nonneg incoming) as Hn.
    constructor.
    + apply percent_in_range; [exact t_pos | lia].
    + apply IH; lia.
Qed.

End Reports.

Lemma reports_nearest t incoming : forall loaded,
  0 < t <= 2 ^ 53 ->
  0 <= loaded ->
  loaded + total_bytes incoming <= t ->
  Forall2 (fun l p => nearest_percent l t p)
    (received loaded incoming)
    (map (fun l => percent l t) (received loaded incoming)).
Proof.
  induction incoming as [|value incoming IH]; intros loaded Ht H0 Hle;
    [constructor|].
  simpl in *. pose proof (blen_nonneg value) as Hv.
  pose proof (total_bytes_nonneg incoming) as Hn.
  constructor.
  - apply percent_near; lia.
  - apply IH; lia.
Qed.

Lemma final_report_facts s b :
  Sorted Z.le (final_report s b) /\ HdRel Z.le 100 (final_report s b)
  /\ Forall in_range (final_report s b).
Proof.
  unfold final_report, in_range.
  destruct (ending b); [destruct (name_converts s)|]; repeat split;
    repeat constructor; lia.
Qed.

Lemma download_reports api s quality r b :
  ok r = true -> body r = Some b ->
  progress_reports (trace (downloadMedia api s quality (Ok r)))
  = 0 :: chunk_reports (parseInt10 (content_length r)) (chunks b)
      ++ final_report s b.
Proof.
  intros Hok Hbody.
  rewrite (downloadMedia_streamed api s quality r b Hok Hbody).
  unfold trace. cbn [fst].
  change (?a :: ?b :: ?c :: ?d :: ?l) with ([a; b; c; d] ++ l).
  rewrite !progress_reports_app, progress_reports_loop.
  unfold download_tail, final_report.
  destruct (ending b); [destruct (name_converts s)|]; reflexivity.
Qed.

(** C2, as amended.  In a download that receives a success response with a
    body, the calls of [setProgress] are: 0 at the start; after each chunk,
    and only when the Content-Length header parses to a non-zero number,
    [Math.round((loaded / total) * 100)] computed in doubles; 100 once the
    last chunk has been read and the file has been offered.  When the
    declared total is positive, at most 2^53, and the body holds no more
    bytes than declared, this sequence is non-decreasing and within
    [0,100], and the report after each chunk is the exact percentage
    rounded to the nearest integer, up to the error of the doubles.  When
    the header is absent no chunk is followed by a report: the progress
    stays at 0 until the closing 100. *)
Theorem download_progress_monotone_bounded api s quality r b :
  ok r = true ->
  body r = Some b ->
  covers (parseInt10 (content_length r)) b ->
  let total := parseInt10 (content_length r) in
  let reports := progress_reports (trace (downloadMedia api s quality (Ok r))) in
  reports = 0 :: chunk_reports total (chunks b) ++ final_report s b
  /\ Sorted Z.le reports
  /\ Forall in_range reports
  /\ (forall t, total = Some t -> known total = true ->
        Forall2 (fun l p => nearest_percent l t p)
          (received 0 (chunks b)) (chunk_reports total (chunks b)))
  /\ (content_length r = None -> reports = 0 :: final_report s b).
Proof.
  intros Hok Hbody Hcov total reports.
  assert (Hrep := download_reports api s quality r b Hok Hbody).
  fold total reports in Hrep.
  destruct (final_report_facts s b) as (Hs & Hh & Hf).
  split; [exact Hrep|]. rewrite Hrep.
  assert (Hzero : in_range 0) by (unfold in_range; lia).
  assert (Hplain : Sorted Z.le (0 :: final_report s b)
                   /\ Forall in_range (0 :: final_report s b)).
  { split; constructor; auto. apply (hdrel_le_trans 0 100); [lia | exact Hh]. }
  unfold chunk_reports, covers in *. fold total in Hcov.
  destruct total as [t|] eqn:Hparse.
  - destruct (known (Some t)) eqn:Hknown.
    + destruct (Hcov eq_refl) as [[Ht Ht53] Hle].
      split; [|split; [|split]].
      * apply reports_sorted; auto; try lia.
        rewrite percent_zero; lia.
      * constructor; [exact Hzero|]. apply reports_in_range; auto; lia.
      * intros t' Et _. injection Et as <-.
        apply reports_nearest; lia.
      * intros Hnone. unfold total in Hparse. rewrite Hnone in Hparse.
        discriminate.
    + cbn [app]. destruct Hplain. repeat split; auto. discriminate.
  - cbn [app]. destruct Hplain. repeat split; auto. discriminate.
Qed.

(** Three downloads.  40 bytes in chunks of 23 and 17: the quotient 23/40
    is the double just below 0.575 and the report is 57, where the exact
    percentage 57.5 would give 58.  8 bytes in chunks of 5 and 3: 62.5 is
    exact and goes up, to 63.  No header: 0, then the closing 100. *)
Lemma download_progress_monotone_bounded_witness :
  (let reports :=
     progress_reports
       (trace (downloadMedia Sample.api Sample.fetched (lit "best")
                 (Ok (Sample.media (Some (lit "40")) Sample.uneven)))) in
   reports = [0; 57; 100; 100]
   /\ Sorted Z.le reports /\ Forall in_range reports)
  /\ progress_reports
       (trace (downloadMedia Sample.api Sample.fetched (lit "best")
                 (Ok (Sample.media (Some (lit "8")) Sample.eight))))
     = [0; 63; 100; 100]
  /\ progress_reports
       (trace (downloadMedia Sample.api Sample.fetched (lit "best")
                 (Ok (Sample.media None Sample.seven))))
     = [0; 100].
Proof.
  split; [|split].
  - assert (Hcov : covers (parseInt10 (Some (lit "40"))) Sample.uneven).
    { vm_compute. intros _. repeat split; discriminate. }
    destruct (download_progress_monotone_bounded Sample.api Sample.fetched
                (lit "best") (Sample.media (Some (lit "40")) Sample.uneven)
                Sample.uneven eq_refl eq_refl Hcov)
      as (Heq & Hsorted & Hrange & _).
    cbv zeta. split; [|split]; [|exact Hsorted|exact Hrange].
    rewrite Heq. vm_compute. reflexivity.
  - assert (Hcov : covers (parseInt10 (Some (lit "8"))) Sample.eight).
    { vm_compute. intros _. repeat split; discriminate. }
    destruct (download_progress_monotone_bounded Sample.api Sample.fetched
                (lit "best") (Sample.media (Some (lit "8")) Sample.eight)
                Sample.eight eq_refl eq_refl Hcov) as (Heq & _).
    rewrite Heq. vm_compute. reflexivity.
  - destruct (download_progress_monotone_bounded Sample.api Sample.fetched
                (lit "best") (Sample.media None Sample.seven)
                Sample.seven eq_refl eq_refl I) as (_ & _ & _ & _ & Hnone).
    exact (Hnone eq_refl).
Defined.

(** C2 as stated fails: a supplied Content-Length does not bound the
    progress.  The header counts the bytes on the wire; when the body is
    delivered decoded (a compressed transfer), more bytes arrive than
    declared.  With 5 bytes declared and one chunk of 10, the progress goes
    to 200 and then back to 100. *)
Lemma download_progress_overshoots :
  let r := Sample.media (Some (lit "5"))
             {| chunks := [Sample.zeros 10]; ending := Ok tt |} in
  let reports :=
    progress_reports
      (trace (downloadMedia Sample.api Sample.fetched (lit "best") (Ok r))) in
  parseInt10 (content_length r) = Some 5
  /\ reports = [0; 200; 100]
  /\ ~ Forall in_range reports
  /\ ~ Sorted Z.le reports.
Proof.
  cbv zeta.
  assert (Heq : progress_reports
                  (trace (downloadMedia Sample.api Sample.fetched (lit "best")
                            (Ok (Sample.media (Some (lit "5"))
                                   {| chunks := [Sample.zeros 10];
                                      ending := Ok tt |}))))
                = [0; 200; 100]) by (vm_compute; reflexivity).
  split; [reflexivity|]. split; [exact Heq|]. rewrite Heq. split.
  - intros H. inversion H as [|? ? _ H']. inversion H' as [|? ? Hbad _].
    unfold in_range in Hbad. lia.
  - intros H. inversion H as [|? ? H' _]. inversion H' as [|? ? _ Hhd].
    inversion Hhd. lia.
Qed.

(** ** The two request handlers, as traces *)

Lemma downloadMedia_eq api s quality net :
  downloadMedia api s quality net
  = ([SetDownloading true; SetError []; SetProgress 0;
      download_request api s quality]
     ++ download_conclusion s net ++ [SetDownloading false],
     Ok tt).
Proof.
  destruct net as [r|e]; [|reflexivity].
  unfold download_conclusion.
  destruct (ok r) eqn:Hok.
  - destruct (body r) as [b|] eqn:Hbody.
    + rewrite (downloadMedia_streamed api s quality r b Hok Hbody).
      now rewrite <- app_assoc.
    + unfold downloadMedia, fetch.
      cbn [bind emit await ret app try_catch_finally].
      rewrite Hok, Hbody. reflexivity.
  - unfold downloadMedia, fetch, failure_message, reported.
    cbn [bind emit await ret app try_catch_finally].
    rewrite Hok. cbn [negb].
    destruct (json r) as [data|e]; [|reflexivity].
    destruct data; try reflexivity;
      unfold get, toText; cbn [has_properties bind ret app];
      match goal with |- context [converts ?v] => destruct (converts v) end;
      reflexivity.
Qed.

Lemma truthy_str t : truthy (JStr t) = false <-> t = [].
Proof. destruct t; simpl; split; congruence. Qed.

Lemma fetchMetadata_eq api s net :
  validated s ->
  fetchMetadata api s net
  = ([SetLoading true; SetError []; SetSuccess []; SetMetadata JNull;
      metadata_request api s]
     ++ metadata_conclusion net ++ [SetLoading false],
     Ok tt).
Proof.
  intros [Hurl Hname]. unfold fetchMetadata.
  destruct (truthy (JStr (trim (mediaUrl s)))) eqn:H1;
    [|apply truthy_str in H1; contradiction].
  destruct (truthy (JStr (trim (solidarityName s)))) eqn:H2;
    [|apply truthy_str in H2; contradiction].
  cbn [negb]. unfold fetch, metadata_conclusion, failure_message, reported.
  destruct net as [r|e]; [|reflexivity].
  cbn [bind emit await ret app try_catch_finally].
  destruct (json r) as [data|e] eqn:Hjson; [|reflexivity].
  destruct (ok r); cbn [negb]; [reflexivity|].
  destruct data; try reflexivity;
    unfold get, toText; cbn [has_properties bind ret app];
    match goal with |- context [converts ?v] => destruct (converts v) end;
    reflexivity.
Qed.

Lemma fetchMetadata_blank api s net :
  ~ validated s ->
  exists message,
    fetchMetadata api s net = ([SetError message], Ok tt) /\ message <> [].
Proof.
  intros Hnot. unfold fetchMetadata.
  destruct (truthy (JStr (trim (mediaUrl s)))) eqn:H1; cbn [negb].
  - destruct (truthy (JStr (trim (solidarityName s)))) eqn:H2; cbn [negb].
    + exfalso. apply Hnot. split; intros E; rewrite E in *; discriminate.
    + eexists. split; [reflexivity | discriminate].
  - eexists. split; [reflexivity | discriminate].
Qed.

(** The metadata fetch is guarded: with a blank URL or campaign name it
    sets an error message and sends nothing; otherwise it sends exactly one
    request, which carries the trimmed values. *)
Lemma fetchMetadata_blank_sends_nothing api s net :
  trim (mediaUrl s) = [] \/ trim (solidarityName s) = [] ->
  requests (trace (fetchMetadata api s net)) = [].
Proof.
  intros Hblank.
  destruct (fetchMetadata_blank api s net) as (message & -> & _);
    [|reflexivity].
  intros [Hurl Hname]. destruct Hblank; contradiction.
Qed.

Lemma requests_metadata_conclusion net : requests (metadata_conclusion net) = [].
Proof.
  destruct net as [r|e]; simpl; [|reflexivity].
  destruct (json r); [destruct (ok r)|]; reflexivity.
Qed.

Lemma requests_download_conclusion s net :
  requests (download_conclusion s net) = [].
Proof.
  destruct net as [r|e]; simpl; [|reflexivity].
  destruct (ok r); [|reflexivity].
  destruct (body r) as [b|]; [|reflexivity].
  rewrite requests_app.
  destruct (loop_trace_only_progress (parseInt10 (content_length r)) 0 (chunks b))
    as [_ ->].
  unfold download_tail.
  destruct (ending b); [destruct (name_converts s)|]; reflexivity.
Qed.

Lemma fetchMetadata_validated_sends api s net :
  validated s ->
  requests (trace (fetchMetadata api s net))
  = [(api ++ lit "/metadata",
      Json.stringify
        (JObj [(lit "url", JStr (trim (mediaUrl s)));
               (lit "solidarity", JStr (trim (solidarityName s)))]) 0)].
Proof.
  intros Hv. rewrite (fetchMetadata_eq api s net Hv). unfold trace. cbn [fst].
  rewrite !requests_app, requests_metadata_conclusion. reflexivity.
Qed.

(** The download has no such guard: whatever the inputs hold, it sends its
    request. *)
Lemma downloadMedia_always_sends api s quality net :
  requests (trace (downloadMedia api s quality net))
  = [(api ++ lit "/download",
      Json.stringify
        (JObj [(lit "url", JStr (trim (mediaUrl s)));
               (lit "solidarity", JStr (trim (solidarityName s)));
               (lit "quality", JStr quality)]) 0)].
Proof.
  rewrite downloadMedia_eq. unfold trace. cbn [fst].
  rewrite !requests_app, requests_download_conclusion. reflexivity.
Qed.

(** *** C3 *)

(** C3: the claim holds of the metadata fetch
    ([fetchMetadata_blank_sends_nothing], [fetchMetadata_validated_sends])
    and fails for the download.  The user fills both inputs, fetches the
    metadata, then empties the inputs (the URL holds only blanks, the
    campaign name nothing): the download button is still shown and
    enabled, and a click on it sends a request whose [url] and
    [solidarity] are empty, whatever the network then answers. *)
Theorem download_sends_request_with_blank_inputs :
  let steps := [ChangeName (lit "Climate Justice");
                ChangeUrl (lit "https://example.com/v/1");
                ClickFetch (Ok Sample.found);
                ChangeUrl (lit "   ");
                ChangeName []] in
  let s := snd (session Sample.api initial steps) in
  trim (mediaUrl s) = [] /\ trim (solidarityName s) = []
  /\ truthy (metadata s) = true /\ downloading s = false
  /\ forall net,
       requests (act Sample.api s (ClickDownload net))
       = [(lit "http://localhost:5000/api/download",
           Json.stringify
             (JObj [(lit "url", JStr []);
                    (lit "solidarity", JStr []);
                    (lit "quality", JStr (lit "best"))]) 0)].
Proof.
  cbv zeta.
  set (s := snd (session _ _ _)).
  assert (Hs : s = {| mediaUrl := lit "   "; metadata := Sample.rally;
                      loading := false; downloading := false; progress := 0;
                      error := [];
                      success := lit "Media information loaded successfully!";
                      solidarityName := [] |})
    by (vm_compute; reflexivity).
  rewrite Hs. repeat split.
  intros net. cbn [act metadata downloading]. cbn [Sample.rally truthy negb andb].
  rewrite downloadMedia_always_sends. reflexivity.
Qed.

(** *** C5 *)

Lemma reported_fallback data generic :
  truthy (prop data "error") = false -> reported data generic = lit generic.
Proof. unfold reported, js_or. now intros ->. Qed.

Lemma reported_string data generic m :
  prop data "error" = JStr m -> m <> [] -> reported data generic = m.
Proof.
  unfold reported, js_or. intros -> Hm. destruct m; [contradiction|reflexivity].
Qed.

Lemma textual_converts : forall v, textual v = true -> converts v = true.
Proof.
  fix IH 1. intros [| | | | |items|fields]; simpl; auto.
  induction items as [|x items IHl]; simpl; [reflexivity|].
  intros H. apply andb_true_iff in H as [H1 H2].
  rewrite (IH x H1). exact (IHl H2).
Qed.

Lemma textual_or v (w : jstring) :
  textual v = true -> converts (js_or v (JStr w)) = true.
Proof.
  intros H. unfold js_or. destruct (truthy v); [|reflexivity].
  now apply textual_converts.
Qed.

(** C5, as amended.  On a non-success response whose body is a JSON value
    other than [null], and whose [error] field is a text, or any other
    value that converts to a text (no object with a property [toString]
    of its own, no number beyond 2^53), both handlers end with the error
    message [data.error] when that field is truthy and with their generic
    message when it is missing or falsy; the metadata fetch stores no
    metadata and clears [loading]; the download produces no file and
    clears [downloading]. *)
Theorem failure_response_surfaces_message api s quality r data :
  ok r = false ->
  json r = Ok data ->
  has_properties data = true ->
  textual (prop data "error") = true ->
  (validated s ->
   let t := trace (fetchMetadata api s (Ok r)) in
   error (run s t) = reported data "Failed to fetch metadata"
   /\ metadata (run s t) = JNull
   /\ loading (run s t) = false)
  /\ (let t := trace (downloadMedia api s quality (Ok r)) in
      error (run s t) = reported data "Download failed"
      /\ saved_files t = []
      /\ downloading (run s t) = false)
  /\ (forall generic,
        truthy (prop data "error") = false -> reported data generic = lit generic)
  /\ (forall generic m,
        prop data "error" = JStr m -> m <> [] -> reported data generic = m).
Proof.
  intros Hok Hjson Hprops Htext. split; [|split; [|split]].
  - intros Hv t. subst t. rewrite (fetchMetadata_eq api s (Ok r) Hv).
    unfold trace, metadata_conclusion, failure_message. cbn [fst].
    rewrite Hjson, Hok, Hprops, (textual_or _ _ Htext). repeat split.
  - intros t. subst t. rewrite downloadMedia_eq.
    unfold trace, download_conclusion, failure_message. cbn [fst].
    rewrite Hjson, Hok, Hprops, (textual_or _ _ Htext). repeat split.
  - intros generic. apply reported_fallback.
  - intros generic m. apply reported_string.
Qed.

Lemma failure_response_surfaces_message_witness :
  let blocked := JObj [(lit "error", JStr (lit "blocked"))] in
  let r := Sample.failure 403 (Ok blocked) in
  (let t := trace (fetchMetadata Sample.api Sample.filled (Ok r)) in
   error (run Sample.filled t) = lit "blocked"
   /\ metadata (run Sample.filled t) = JNull
   /\ loading (run Sample.filled t) = false)
  /\ (let t := trace (downloadMedia Sample.api Sample.fetched (lit "best") (Ok r)) in
      error (run Sample.fetched t) = lit "blocked"
      /\ saved_files t = []
      /\ downloading (run Sample.fetched t) = false).
Proof.
  cbv zeta.
  destruct (failure_response_surfaces_message Sample.api Sample.filled
              (lit "best") (Sample.failure 403 (Ok (JObj [(lit "error", JStr (lit "blocked"))])))
              (JObj [(lit "error", JStr (lit "blocked"))])
              eq_refl eq_refl eq_refl eq_refl) as (Hfetch & _ & _ & _).
  destruct (failure_response_surfaces_message Sample.api Sample.fetched
              (lit "best") (Sample.failure 403 (Ok (JObj [(lit "error", JStr (lit "blocked"))])))
              (JObj [(lit "error", JStr (lit "blocked"))])
              eq_refl eq_refl eq_refl eq_refl) as (_ & Hdownload & _ & _).
  split.
  - apply Hfetch. split; vm_compute; discriminate.
  - exact Hdownload.
Defined.

(** An [error] field that cannot be converted to a text: [new Error(...)]
    throws, and the message of that [TypeError] is what both handlers
    show. *)
Example scenario_failure_unconvertible :
  let r := Sample.failure 500
             (Ok (JObj [(lit "error", JObj [(lit "toString", JNum 1)])])) in
  error (run Sample.filled (trace (fetchMetadata Sample.api Sample.filled (Ok r))))
  = lit "Cannot convert object to primitive value"
  /\ error (run Sample.fetched
              (trace (downloadMedia Sample.api Sample.fetched (lit "best") (Ok r))))
     = lit "Cannot convert object to primitive value".
Proof. vm_compute. split; reflexivity. Qed.

(** C5 as stated fails on the non-success responses whose body has no
    [error] field because it is not a JSON object at all.  A body that is
    not JSON (the HTML page of a gateway, say) makes [response.json()]
    reject, and the message shown is the one of the parser; the JSON body
    [null] makes the read of [data.error] throw, and the message shown is
    the one of that exception.  Neither is the generic message. *)
Lemma failure_without_json_object :
  let parse_error := lit "Unexpected token '<' is not valid JSON" in
  let html := Sample.failure 502 (Throw parse_error) in
  let null := Sample.failure 500 (Ok JNull) in
  let final r := run Sample.fetched
                   (trace (downloadMedia Sample.api Sample.fetched (lit "best") (Ok r))) in
  let fetched r := run Sample.filled
                     (trace (fetchMetadata Sample.api Sample.filled (Ok r))) in
  ok html = false /\ ok null = false
  /\ error (fetched html) = parse_error
  /\ error (fetched html) <> lit "Failed to fetch metadata"
  /\ error (final html) = parse_error
  /\ error (final html) <> lit "Download failed"
  /\ prop JNull "error" = JUndef
  /\ error (final null) = lit "Cannot read properties of null (reading 'error')"
  /\ error (final null) <> lit "Download failed".
Proof.
  cbv zeta. repeat split; try reflexivity; vm_compute; discriminate.
Qed.

(** *** C8 *)

(** C8, as amended.  Up to the moment the request is sent, a metadata fetch
    that passed validation has reset the error and success messages,
    cleared the stored metadata and raised [loading], and nothing else; a
    download has reset the error message, reset the progress to 0 and
    raised [downloading], and has left the inputs, the stored metadata and
    [loading] as they were.  Nothing is stated of the success message at
    the start of a download. *)
Theorem attempt_start_effects api s quality net net' :
  (validated s ->
   run s (before_request (trace (fetchMetadata api s net)))
   = {| mediaUrl := mediaUrl s; metadata := JNull; loading := true;
        downloading := downloading s; progress := progress s;
        error := []; success := []; solidarityName := solidarityName s |})
  /\ (let s' := run s (before_request (trace (downloadMedia api s quality net'))) in
      error s' = [] /\ progress s' = 0 /\ downloading s' = true
      /\ mediaUrl s' = mediaUrl s /\ solidarityName s' = solidarityName s
      /\ metadata s' = metadata s /\ loading s' = loading s).
Proof.
  split.
  - intros Hv. rewrite (fetchMetadata_eq api s net Hv). reflexivity.
  - rewrite downloadMedia_eq. cbv zeta. repeat split.
Qed.

Lemma attempt_start_effects_witness :
  run Sample.filled
    (before_request
       (trace (fetchMetadata Sample.api Sample.filled (Throw (lit "Failed to fetch")))))
  = {| mediaUrl := lit "https://example.com/v/1"; metadata := JNull;
       loading := true; downloading := false; progress := 0;
       error := []; success := []; solidarityName := lit "Climate Justice" |}.
Proof.
  destruct (attempt_start_effects Sample.api Sample.filled (lit "best")
              (Throw (lit "Failed to fetch")) (Throw (lit "Failed to fetch")))
    as [Hfetch _].
  apply Hfetch. split; vm_compute; discriminate.
Defined.

(** C8 as stated fails twice at the start of a download after a successful
    fetch: the success message of the fetch is still there, and a piece of
    state that the claim does not list, the [downloading] flag, has
    changed (as [loading] does at the start of a fetch). *)
Lemma download_start_keeps_success_and_raises_flag :
  let at_download :=
    run Sample.fetched
      (before_request
         (trace (downloadMedia Sample.api Sample.fetched (lit "best")
                   (Throw (lit "Failed to fetch"))))) in
  let at_fetch :=
    run Sample.filled
      (before_request
         (trace (fetchMetadata Sample.api Sample.filled
                   (Throw (lit "Failed to fetch"))))) in
  success at_download = lit "Media information loaded successfully!"
  /\ success at_download <> []
  /\ downloading at_download <> downloading Sample.fetched
  /\ loading at_fetch <> loading Sample.filled.
Proof.
  cbv zeta. repeat split; try reflexivity; vm_compute; discriminate.
Qed.

(** The success message is not among the things a download resets. *)
Lemma download_start_success_unchanged api s quality net :
  success (run s (before_request (trace (downloadMedia api s quality net))))
  = success s.
Proof. rewrite downloadMedia_eq. reflexivity. Qed.

(** *** C9 *)

(** C9.  Each formatter answers the number 0 with the text it gives for a
    missing value: [formatDuration(0)] is N/A, [formatFileSize(0)] is
    Unknown and [formatNumber(0)] is 0, exactly as for [undefined]. *)
Theorem formatters_at_zero (toLocaleString : Z -> jstring) :
  formatDuration (JNum 0) = Some (lit "N/A")
  /\ formatFileSize (JNum 0) = Some (lit "Unknown")
  /\ formatNumber toLocaleString (JNum 0) = Some (lit "0")
  /\ formatDuration (JNum 0) = formatDuration JUndef
  /\ formatFileSize (JNum 0) = formatFileSize JUndef
  /\ formatNumber toLocaleString (JNum 0) = formatNumber toLocaleString JUndef.
Proof. repeat split. Qed.

(** *** C10 *)

(** C10.  While no metadata is stored ([metadata] is [null]), the JSON
    export and the CSV export return at once: they call nothing, so no
    file is offered and the state is unchanged. *)
Theorem export_without_metadata_is_noop s now :
  metadata s = JNull ->
  downloadMetadataJSON s now = ([], Ok tt)
  /\ downloadMetadataCSV s now = ([], Ok tt)
  /\ saved_files (trace (downloadMetadataJSON s now)) = []
  /\ saved_files (trace (downloadMetadataCSV s now)) = []
  /\ run s (trace (downloadMetadataJSON s now)) = s
  /\ run s (trace (downloadMetadataCSV s now)) = s.
Proof.
  intros Hnull. unfold downloadMetadataJSON, downloadMetadataCSV.
  rewrite Hnull. repeat split.
Qed.

Lemma export_without_metadata_is_noop_witness :
  downloadMetadataJSON initial (lit "2026-01-01T00:00:00.000Z") = ([], Ok tt)
  /\ downloadMetadataCSV initial (lit "2026-01-01T00:00:00.000Z") = ([], Ok tt)
  /\ saved_files (trace (downloadMetadataJSON initial (lit "2026-01-01T00:00:00.000Z"))) = []
  /\ saved_files (trace (downloadMetadataCSV initial (lit "2026-01-01T00:00:00.000Z"))) = []
  /\ run initial (trace (downloadMetadataJSON initial (lit "2026-01-01T00:00:00.000Z"))) = initial
  /\ run initial (trace (downloadMetadataCSV initial (lit "2026-01-01T00:00:00.000Z"))) = initial.
Proof.
  apply (export_without_metadata_is_noop initial (lit "2026-01-01T00:00:00.000Z")).
  reflexivity.
Defined.

(** ** The exports *)

Lemma truthy_has_properties v : truthy v = true -> has_properties v = true.
Proof. destruct v; simpl; congruence. Qed.

Lemma get_defined v k : has_properties v = true -> get v k = ([], Ok (prop v k)).
Proof. destruct v; simpl; intros H; try discriminate; reflexivity. Qed.

Lemma json_data_eq s now :
  truthy (metadata s) = true ->
  json_data s now = ([], Ok (JObj (json_fields s now))).
Proof.
  intros Ht. apply truthy_has_properties in Ht.
  unfold json_data. rewrite !(get_defined _ _ Ht). reflexivity.
Qed.

Lemma downloadMetadataJSON_eq s now :
  truthy (metadata s) = true ->
  downloadMetadataJSON s now
  = if converts (prop (metadata s) "platform")
    then ([SaveFile (solidarityName s ++ lit "_"
                     ++ ToString (prop (metadata s) "platform")
                     ++ lit "_metadata.json")
             (BlobText (Json.stringify (JObj (json_fields s now)) 2)
                "application/json")],
          Ok tt)
    else ([], Throw conversion_error).
Proof.
  intros Ht. unfold downloadMetadataJSON.
  rewrite Ht, (json_data_eq s now Ht). cbn [negb bind].
  rewrite (get_defined _ _ (truthy_has_properties _ Ht)). unfold toText.
  cbn [bind app].
  destruct (converts (prop (metadata s) "platform")); reflexivity.
Qed.

(** The fields of well-formed metadata convert to a text. *)
Lemma text_converts v : is_text v = true -> converts v = true.
Proof. destruct v; simpl; congruence. Qed.



Lemma well_formed_fields m :
  well_formed m = true ->
  Forall (fun k => is_text (prop m k) = true)
    ["title"; "uploader"; "url"; "platform"; "description"; "thumbnail"]%string
  /\ Forall (fun k => is_count (prop m k) = true)
       ["duration"; "viewCount"; "likeCount"; "size"]%string.
Proof.
  destruct m; try discriminate. unfold well_formed.
  rewrite andb_true_iff, !forallb_forall, !Forall_forall. tauto.
Qed.

Lemma well_formed_text m k :
  well_formed m = true ->
  In k ["title"; "uploader"; "url"; "platform"; "description"; "thumbnail"]%string ->
  is_text (prop m k) = true.
Proof.
  intros Hwf Hin. destruct (well_formed_fields m Hwf) as [H _].
  rewrite Forall_forall in H. auto.
Qed.


Lemma well_formed_truthy m : well_formed m = true -> truthy m = true.
Proof. destruct m; simpl; congruence. Qed.

(** *** What [JSON.stringify] writes for an object *)

Lemma serialize_defined gap indent v :
  Json.serialize gap indent v = None <-> defined v = false.
Proof.
  destruct v as [| |[|]| | | |]; simpl; split; congruence.
Qed.

Lemma object_members gap indent fields :
  flat_map (fun kv => match Json.serialize gap indent (snd kv) with
                      | Some t => [Json.member gap (fst kv) t]
                      | None => []
                      end) fields
  = map (fun kv => Json.member gap (fst kv)
                     match Json.serialize gap indent (snd kv) with
                     | Some t => t
                     | None => lit "null"
                     end)
      (present fields).
Proof.
  induction fields as [|[k v] fields IH]; [reflexivity|].
  cbn [flat_map present filter snd fst].
  destruct (Json.serialize gap indent v) eqn:Hs.
  - assert (Hd : defined v = true).
    { destruct (defined v) eqn:Hd; [reflexivity|].
      apply (serialize_defined gap indent) in Hd. congruence. }
    rewrite Hd. cbn [map app fst snd]. rewrite Hs. f_equal. exact IH.
  - apply serialize_defined in Hs. rewrite Hs. exact IH.
Qed.

(** An object with at least one written property, pretty-printed with two
    spaces: one member per line, each indented by two spaces, in the order
    of the properties. *)
Lemma stringify_object_2 fields :
  present fields <> [] ->
  Json.stringify (JObj fields) 2
  = lit "{" ++ Json.nl ++ lit "  "
    ++ join (lit "," ++ Json.nl ++ lit "  ")
         (map (fun kv => Json.quote (fst kv) ++ lit ": " ++ value_text (snd kv))
            (present fields))
    ++ Json.nl ++ lit "}".
Proof.
  intros Hne. unfold Json.stringify. cbn [Json.serialize].
  rewrite object_members. unfold Json.wrap.
  destruct (present fields) as [|kv rest] eqn:Hp; [contradiction|].
  reflexivity.
Qed.

Lemma eqb_eq a b : JsString.eqb a b = true <-> a = b.
Proof.
  revert b. induction a as [|x a IH]; destruct b as [|y b]; simpl;
    try (split; congruence).
  rewrite andb_true_iff, N.eqb_eq, IH. split.
  - intros [-> ->]. reflexivity.
  - intros E. injection E. auto.
Qed.

Lemma lookup_absent k fields :
  ~ In k (map fst fields) -> lookup k fields = JUndef.
Proof.
  induction fields as [|[k' v] fields IH]; simpl; [reflexivity|].
  intros Hnot. destruct (JsString.eqb k k') eqn:E.
  - apply eqb_eq in E. subst. exfalso. auto.
  - apply IH. auto.
Qed.

(** With distinct keys, a key is written exactly when its value is not
    [undefined]. *)
Lemma present_key fields k :
  NoDup (map fst fields) ->
  (In k (map fst (present fields)) <-> defined (lookup k fields) = true).
Proof.
  induction fields as [|[k' v] fields IH]; intros Hnd.
  - simpl. split; [contradiction | discriminate].
  - inversion Hnd as [|? ? Hnotin Hnd']; subst.
    cbn [present filter snd lookup].
    destruct (JsString.eqb k k') eqn:E.
    + apply eqb_eq in E. subst k'.
      destruct (defined v) eqn:Hd.
      * split; [reflexivity | intros _; left; reflexivity].
      * split; [|discriminate]. intros Hin. exfalso. apply Hnotin.
        apply in_map_iff in Hin. destruct Hin as (kv & Hk & Hin).
        apply filter_In in Hin. apply in_map_iff. exists kv. tauto.
    + assert (Hneq : k' <> k).
      { intros ->. assert (JsString.eqb k k = true) by now apply eqb_eq.
        congruence. }
      fold (present fields).
      destruct (defined v); rewrite <- (IH Hnd'); simpl; tauto.
Qed.

Lemma json_fields_keys s now : map fst (json_fields s now) = map lit json_keys.
Proof. reflexivity. Qed.

Lemma json_keys_distinct : NoDup (map lit json_keys).
Proof.
  repeat constructor; vm_compute; intuition discriminate.
Qed.

Lemma json_fields_lookup s now k :
  In k passed_through -> lookup (lit k) (json_fields s now) = prop (metadata s) k.
Proof.
  intros Hin. simpl in Hin.
  repeat (destruct Hin as [<-|Hin]; [reflexivity|]). contradiction.
Qed.

Lemma defined_iff v : defined v = true <-> v <> JUndef.
Proof. destruct v; simpl; split; congruence. Qed.

Lemma truthy_defined v : truthy v = true -> defined v = true.
Proof. destruct v; simpl; congruence. Qed.

(** *** C6 *)

(** C6, as amended.  For well-formed metadata (each text field a string,
    each numeric field an integer that a double holds exactly, or missing)
    the JSON export does not throw and offers one file, the text of
    [JSON.stringify(data, null, 2)]:
    [data] has the eleven keys solidarity_campaign ... archived_at in that
    order; the text lists one member per line, indented by two spaces, in
    the same order; each of title, uploader, url, description, duration,
    viewCount, likeCount and thumbnail is copied from the metadata and left
    out of the text exactly when the metadata does not have it; platform is
    always written, as [unknown] when the metadata has none. *)
Theorem json_export_shape s now :
  well_formed (metadata s) = true ->
  let fields := json_fields s now in
  downloadMetadataJSON s now
  = ([SaveFile (solidarityName s ++ lit "_"
                ++ ToString (prop (metadata s) "platform")
                ++ lit "_metadata.json")
        (BlobText (Json.stringify (JObj fields) 2) "application/json")],
     Ok tt)
  /\ map fst fields = map lit json_keys
  /\ Json.stringify (JObj fields) 2
     = lit "{" ++ Json.nl ++ lit "  "
       ++ join (lit "," ++ Json.nl ++ lit "  ")
            (map (fun kv => Json.quote (fst kv) ++ lit ": " ++ value_text (snd kv))
               (present fields))
       ++ Json.nl ++ lit "}"
  /\ (forall k, In k passed_through ->
        lookup (lit k) fields = prop (metadata s) k
        /\ (In (lit k) (map fst (present fields)) <-> prop (metadata s) k <> JUndef))
  /\ lookup (lit "platform") fields
     = js_or (prop (metadata s) "platform") (JStr (lit "unknown"))
  /\ In (lit "platform") (map fst (present fields)).
Proof.
  intros Hwf fields.
  pose proof (well_formed_truthy _ Hwf) as Ht.
  assert (Hnd : NoDup (map fst fields)).
  { unfold fields. rewrite json_fields_keys. exact json_keys_distinct. }
  split.
  { rewrite (downloadMetadataJSON_eq s now Ht), text_converts; [reflexivity|].
    apply (well_formed_text _ "platform" Hwf). simpl. tauto. }
  split; [reflexivity|].
  split; [apply stringify_object_2; discriminate|].
  split; [|split; [reflexivity|]].
  - intros k Hin. pose proof (json_fields_lookup s now k Hin) as Hl.
    fold fields in Hl. split; [exact Hl|].
    rewrite (present_key fields (lit k) Hnd), Hl. apply defined_iff.
  - apply (present_key fields (lit "platform") Hnd).
    change (lookup (lit "platform") fields)
      with (js_or (prop (metadata s) "platform") (JStr (lit "unknown"))).
    unfold js_or. destruct (truthy (prop (metadata s) "platform")) eqn:E;
      [now apply truthy_defined | reflexivity].
Qed.

Lemma json_export_shape_witness :
  let now := lit "2026-01-01T00:00:00.000Z" in
  let fields := json_fields Sample.fetched now in
  map fst (present fields)
  = map lit ["solidarity_campaign"; "platform"; "title"; "uploader";
             "viewCount"; "archived_at"]%string
  /\ (In (lit "thumbnail") (map fst (present fields))
      <-> prop (metadata Sample.fetched) "thumbnail" <> JUndef)
  /\ In (lit "platform") (map fst (present fields)).
Proof.
  cbv zeta.
  destruct (json_export_shape Sample.fetched (lit "2026-01-01T00:00:00.000Z")
              eq_refl) as (_ & _ & _ & Hcopy & _ & Hplatform).
  split; [reflexivity|]. split; [|exact Hplatform].
  apply (Hcopy "thumbnail"%string). simpl. tauto.
Defined.

(** A platform that cannot be converted to a text is outside the
    well-formed metadata: the object is built and serialized, then the
    template literal of [link.download] throws and no file is offered. *)
Example scenario_json_export_unconvertible :
  let s := {| mediaUrl := []; 
              metadata := JObj [(lit "platform", JObj [(lit "toString", JNum 1)])];
              loading := false; downloading := false; progress := 0;
              error := []; success := []; solidarityName := lit "Climate Justice" |} in
  downloadMetadataJSON s (lit "2026-01-01T00:00:00.000Z")
  = ([], Throw (lit "Cannot convert object to primitive value")).
Proof. vm_compute. reflexivity. Qed.

(** C6 as stated fails for the optional field platform: the metadata of the
    sample has none, and the exported text has a platform member all the
    same, with the value [unknown]. *)
Lemma json_export_writes_unset_platform :
  let now := lit "2026-01-01T00:00:00.000Z" in
  prop (metadata Sample.fetched) "platform" = JUndef
  /\ In (lit "platform") (map fst (present (json_fields Sample.fetched now)))
  /\ saved_files (trace (downloadMetadataJSON Sample.fetched now))
     = [(lit "Climate Justice_undefined_metadata.json",
         BlobText
           (join Json.nl
              [lit "{";
               lit "  " ++ Json.quote (lit "solidarity_campaign") ++ lit ": "
                 ++ Json.quote (lit "Climate Justice") ++ lit ",";
               lit "  " ++ Json.quote (lit "platform") ++ lit ": "
                 ++ Json.quote (lit "unknown") ++ lit ",";
               lit "  " ++ Json.quote (lit "title") ++ lit ": "
                 ++ Json.quote (lit "Rally") ++ lit ",";
               lit "  " ++ Json.quote (lit "uploader") ++ lit ": "
                 ++ Json.quote (lit "ActivistOrg") ++ lit ",";
               lit "  " ++ Json.quote (lit "viewCount") ++ lit ": 1500,";
               lit "  " ++ Json.quote (lit "archived_at") ++ lit ": "
                 ++ Json.quote now;
               lit "}"])
           "application/json")].
Proof.
  cbv zeta. split; [reflexivity|]. split; [|vm_compute; reflexivity].
  vm_compute. tauto.
Qed.

(** *** The CSV export *)







Lemma missing_falsy v : missing v -> truthy v = false.
Proof. intros [-> | ->]; reflexivity. Qed.

(** *** The table of the CSV export *)


(** The labels are the fixed list, and the value cell of a missing view
    count, like count or duration is 0, of a missing platform [unknown],
    of a missing uploader [Unknown]. *)
Lemma csv_table_defaults s now :
  let m := metadata s in
  let table := csv_table s now in
  map fst table = csv_labels
  /\ (missing (prop m "viewCount") -> cell "Views" table = lit "0")
  /\ (missing (prop m "likeCount") -> cell "Likes" table = lit "0")
  /\ (missing (prop m "duration") -> cell "Duration" table = lit "0")
  /\ (missing (prop m "platform") -> cell "Platform" table = lit "unknown")
  /\ (missing (prop m "uploader") -> cell "Uploader" table = lit "Unknown").
Proof.
  intros m table. split; [reflexivity|].
  repeat split; intros Hm; apply missing_falsy in Hm;
    cbn [table csv_table cell String.eqb Ascii.eqb Bool.eqb];
    unfold js_or; fold m; rewrite Hm; reflexivity.
Qed.

(** *** C7 *)

(** C7: the export writes its ten lines in the fixed order and with the
    defaults of the claim, but the lines are not always the rows of a
    two-column table.  The address of the media is written bare; an
    address with a comma in it (a query with two values, say) makes the
    URL line a record of three fields.  The metadata has no platform, no
    uploader and no counts: their rows read [unknown], [Unknown] and 0. *)
Theorem csv_export_url_breaks_table :
  let s := {| mediaUrl := lit "https://example.com/watch?v=1,2";
              metadata := JObj [(lit "title", JStr (lit "Rally"));
                                (lit "url",
                                 JStr (lit "https://example.com/watch?v=1,2"))];
              loading := false; downloading := false; progress := 0;
              error := []; success := [];
              solidarityName := lit "Climate Justice" |} in
  let now := lit "2026-01-01T00:00:00.000Z" in
  let tables := map Csv.parse (saved_texts (trace (downloadMetadataCSV s now))) in
  well_formed (metadata s) = true
  /\ tables
     = [[[lit "Field"; lit "Value"];
         [lit "Solidarity Campaign"; lit "Climate Justice"];
         [lit "Platform"; lit "unknown"];
         [lit "Title"; lit "Rally"];
         [lit "Uploader"; lit "Unknown"];
         [lit "URL"; lit "https://example.com/watch?v=1"; lit "2"];
         [lit "Views"; lit "0"];
         [lit "Likes"; lit "0"];
         [lit "Duration"; lit "0"];
         [lit "Archived At"; now]]]
  /\ ~ Forall (Forall (fun row => List.length row = 2%nat)) tables.
Proof.
  cbv zeta.
  set (s := {| mediaUrl := lit "https://example.com/watch?v=1,2";
               metadata := JObj [(lit "title", JStr (lit "Rally"));
                                 (lit "url",
                                  JStr (lit "https://example.com/watch?v=1,2"))];
               loading := false; downloading := false; progress := 0;
               error := []; success := [];
               solidarityName := lit "Climate Justice" |}).
  set (now := lit "2026-01-01T00:00:00.000Z").
  assert (Heq : map Csv.parse (saved_texts (trace (downloadMetadataCSV s now)))
                = [[[lit "Field"; lit "Value"];
                    [lit "Solidarity Campaign"; lit "Climate Justice"];
                    [lit "Platform"; lit "unknown"];
                    [lit "Title"; lit "Rally"];
                    [lit "Uploader"; lit "Unknown"];
                    [lit "URL"; lit "https://example.com/watch?v=1"; lit "2"];
                    [lit "Views"; lit "0"];
                    [lit "Likes"; lit "0"];
                    [lit "Duration"; lit "0"];
                    [lit "Archived At"; now]]])
    by (vm_compute; reflexivity).
  split; [vm_compute; reflexivity|]. split; [exact Heq|].
  rewrite Heq. intros H.
  inversion H as [|table rest Htable _]; subst.
  repeat match goal with
         | Hrow : Forall _ (_ :: _) |- _ =>
             inversion Hrow; subst; clear Hrow
         end.
  simpl in *. discriminate.
Qed.

(** *** C4 *)

(** Inside a quoted field the reader takes a text with its quotes doubled
    for the text itself. *)
Lemma read_quoted t : forall field row rest,
  Csv.read Csv.Quoted field row (double_quotes t ++ rest)
  = Csv.read Csv.Quoted (rev t ++ field) row rest.
Proof.
  induction t as [|c t IH]; intros field row rest; [reflexivity|].
  cbn [double_quotes]. destruct (c =? 34)%N eqn:E.
  - apply N.eqb_eq in E. subst c. cbn [app Csv.read N.eqb Pos.eqb].
    rewrite IH. cbn [rev]. now rewrite <- app_assoc.
  - cbn [app Csv.read]. rewrite E, IH. cbn [rev]. now rewrite <- app_assoc.
Qed.

(** The one row whose value is escaped reads back as written, whatever the
    title holds: quotes, commas, line breaks. *)
Lemma csv_title_row_round_trip (t : jstring) :
  Csv.parse (lit "Title," ++ dq ++ double_quotes t ++ dq) = [[lit "Title"; t]].
Proof.
  unfold Csv.parse.
  change (lit "Title," ++ dq ++ double_quotes t ++ dq)
    with (lit "Title," ++ 34%N :: (double_quotes t ++ dq)).
  change (Csv.read Csv.FieldStart [] [] (lit "Title," ++ 34%N :: (double_quotes t ++ dq)))
    with (Csv.read Csv.Quoted [] [rev (rev (lit "Title"))] (double_quotes t ++ dq)).
  rewrite read_quoted. cbn [Csv.read dq N.eqb Pos.eqb].
  unfold Csv.close_field. rewrite app_nil_r, !rev_involutive. reflexivity.
Qed.

(** The same happens to a campaign name with a quote in it: the row is
    wrapped in quotes but the inner quotes are not doubled. *)
Example csv_campaign_row_broken :
  let name := lit "Say " ++ dq ++ lit "no" ++ dq in
  Csv.parse (lit "Solidarity Campaign," ++ dq ++ name ++ dq)
  <> [[lit "Solidarity Campaign"; name]].
Proof. vm_compute. discriminate. Qed.

(** C4: the code escapes the title and nothing else.  An uploader name with
    a comma is written bare, and its row reads back as three fields; the
    title of the same export, quotes and comma included, reads back
    intact. *)
Theorem csv_export_unescaped_uploader :
  let title := lit "He said " ++ dq ++ lit "hi" ++ dq ++ lit ", twice" in
  let s := {| mediaUrl := lit "https://example.com/v/1";
              metadata := JObj [(lit "title", JStr title);
                                (lit "uploader", JStr (lit "Doe, Jane"));
                                (lit "url", JStr (lit "https://example.com/v/1"));
                                (lit "platform", JStr (lit "youtube"))];
              loading := false; downloading := false; progress := 0;
              error := []; success := [];
              solidarityName := lit "Climate Justice" |} in
  let now := lit "2026-01-01T00:00:00.000Z" in
  well_formed (metadata s) = true
  /\ map Csv.parse (saved_texts (trace (downloadMetadataCSV s now)))
     = [[[lit "Field"; lit "Value"];
         [lit "Solidarity Campaign"; lit "Climate Justice"];
         [lit "Platform"; lit "youtube"];
         [lit "Title"; title];
         [lit "Uploader"; lit "Doe"; lit " Jane"];
         [lit "URL"; lit "https://example.com/v/1"];
         [lit "Views"; lit "0"];
         [lit "Likes"; lit "0"];
         [lit "Duration"; lit "0"];
         [lit "Archived At"; now]]].
Proof.
  cbv zeta. split; vm_compute; reflexivity.
Qed.

(** ** Further properties of the request handlers *)

Lemma last_cons_default {A} (x : A) (l : list A) (d d' : A) :
  last (x :: l) d = last (x :: l) d'.
Proof.
  revert x. induction l as [|y l IH]; intros x; [reflexivity|].
  change (last (x :: y :: l) d) with (last (y :: l) d).
  change (last (x :: y :: l) d') with (last (y :: l) d').
  apply IH.
Qed.

Lemma run_loop_trace total incoming s :
  run s (loop_trace total 0 incoming)
  = mkState (mediaUrl s) (metadata s) (loading s) (downloading s)
      (last (chunk_reports total incoming) (progress s))
      (error s) (success s) (solidarityName s).
Proof.
  unfold loop_trace, chunk_reports.
  destruct total as [t|]; [|now destruct s].
  destruct (known (Some t)); [|now destruct s].
  generalize (received 0 incoming) as ls. intros ls. revert s.
  induction ls as [|l ls IH]; intros s; [now destruct s|].
  cbn [map run fold_left]. fold (run (apply s (SetProgress (percent l t)))
                                    (map (fun l => SetProgress (percent l t)) ls)).
  rewrite IH. cbn [apply mediaUrl metadata loading downloading error success
                   solidarityName progress].
  f_equal. destruct ls as [|z ls]; [reflexivity|].
  cbn [map].
  exact (last_cons_default (percent z t) (map (fun l => percent l t) ls)
           (percent l t) (progress s)).
Qed.

(** X1.  A metadata fetch that passes validation and receives a success
    response stores the parsed body as it is, whatever JSON value it is,
    clears the error, shows the success message and lowers [loading]; the
    inputs, the progress and [downloading] are untouched. *)
Theorem fetch_success_final_state api s r data :
  validated s ->
  ok r = true ->
  json r = Ok data ->
  run s (trace (fetchMetadata api s (Ok r)))
  = {| mediaUrl := mediaUrl s; metadata := data; loading := false;
       downloading := downloading s; progress := progress s; error := [];
       success := lit "Media information loaded successfully!";
       solidarityName := solidarityName s |}.
Proof.
  intros Hv Hok Hjson. rewrite (fetchMetadata_eq api s (Ok r) Hv).
  unfold trace, metadata_conclusion. cbn [fst]. rewrite Hjson, Hok.
  reflexivity.
Qed.

Lemma fetch_success_final_state_witness :
  metadata (run Sample.filled
              (trace (fetchMetadata Sample.api Sample.filled (Ok Sample.found))))
  = Sample.rally.
Proof.
  rewrite (fetch_success_final_state Sample.api Sample.filled Sample.found
             Sample.rally).
  - reflexivity.
  - split; vm_compute; discriminate.
  - reflexivity.
  - reflexivity.
Defined.

(** X2.  A metadata fetch that passes validation and does not succeed
    (the request is rejected, the status is not a success, or the body is
    not JSON) leaves no metadata and no success message behind: what an
    earlier fetch had stored is gone, and [loading] is lowered. *)
Theorem fetch_failure_clears_metadata api s net :
  validated s ->
  fetch_succeeds net = false ->
  let s' := run s (trace (fetchMetadata api s net)) in
  metadata s' = JNull /\ success s' = [] /\ loading s' = false
  /\ mediaUrl s' = mediaUrl s /\ solidarityName s' = solidarityName s
  /\ progress s' = progress s /\ downloading s' = downloading s.
Proof.
  intros Hv Hfail. cbv zeta. rewrite (fetchMetadata_eq api s net Hv).
  unfold trace, metadata_conclusion. cbn [fst].
  destruct net as [r|e]; [|repeat split].
  cbn [fetch_succeeds] in Hfail.
  destruct (json r) as [data|e]; [|repeat split].
  destruct (ok r); [discriminate|]. repeat split.
Qed.

Lemma fetch_failure_clears_metadata_witness :
  metadata (run (apply Sample.fetched (SetMetadata Sample.rally))
              (trace (fetchMetadata Sample.api
                        (apply Sample.fetched (SetMetadata Sample.rally))
                        (Throw (lit "Failed to fetch")))))
  = JNull.
Proof.
  apply (fetch_failure_clears_metadata Sample.api
           (apply Sample.fetched (SetMetadata Sample.rally))
           (Throw (lit "Failed to fetch"))).
  - split; vm_compute; discriminate.
  - reflexivity.
Defined.

(** X3.  A metadata fetch with a blank URL or campaign name changes the
    error message and nothing else: the metadata and the success message
    of an earlier fetch stay on screen, and nothing is sent.  When both
    inputs are blank the message is the one about the URL. *)
Theorem fetch_rejected_changes_only_error api s net :
  ~ validated s ->
  let message :=
    if JsString.eqb (trim (mediaUrl s)) []
    then lit "Please enter a valid media URL"
    else lit "Please enter the solidarity campaign name" in
  run s (trace (fetchMetadata api s net))
  = {| mediaUrl := mediaUrl s; metadata := metadata s; loading := loading s;
       downloading := downloading s; progress := progress s;
       error := message; success := success s;
       solidarityName := solidarityName s |}
  /\ requests (trace (fetchMetadata api s net)) = [].
Proof.
  intros Hnot. cbv zeta. unfold fetchMetadata.
  destruct (trim (mediaUrl s)) as [|c u] eqn:Hu; [split; reflexivity|].
  destruct (trim (solidarityName s)) as [|d n] eqn:Hn; [split; reflexivity|].
  exfalso. apply Hnot. unfold validated. rewrite Hu, Hn.
  split; discriminate.
Qed.

Lemma fetch_rejected_changes_only_error_witness :
  run initial (trace (fetchMetadata Sample.api initial (Ok Sample.found)))
  = {| mediaUrl := []; metadata := JNull; loading := false;
       downloading := false; progress := 0;
       error := lit "Please enter a valid media URL"; success := [];
       solidarityName := [] |}.
Proof.
  apply (fetch_rejected_changes_only_error Sample.api initial (Ok Sample.found)).
  intros [H _]. apply H. reflexivity.
Defined.

(** X4.  Whatever the network does, a download ends with [downloading]
    lowered, and a validated fetch with [loading] lowered: a rejected
    request, an error status, a body that is not JSON or a read that
    fails all go through the [finally] block. *)
Theorem busy_flag_always_lowered api s quality net :
  downloading (run s (trace (downloadMedia api s quality net))) = false
  /\ (validated s ->
      loading (run s (trace (fetchMetadata api s net))) = false).
Proof.
  split.
  - rewrite downloadMedia_eq. unfold trace. cbn [fst].
    change (?a :: ?b :: ?c :: ?d :: ?l) with ([a; b; c; d] ++ l).
    rewrite app_assoc, run_app. reflexivity.
  - intros Hv. rewrite (fetchMetadata_eq api s net Hv). unfold trace.
    cbn [fst].
    change (?a :: ?b :: ?c :: ?d :: ?e :: ?l) with ([a; b; c; d; e] ++ l).
    rewrite app_assoc, run_app. reflexivity.
Qed.

Lemma busy_flag_always_lowered_witness :
  loading (run Sample.filled
             (trace (fetchMetadata Sample.api Sample.filled
                       (Ok (Sample.failure 502 (Throw (lit "Unexpected token")))))))
  = false.
Proof.
  apply (busy_flag_always_lowered Sample.api Sample.filled (lit "best")).
  split; vm_compute; discriminate.
Defined.

(** X5.  A download saves a file only when the whole body has been read:
    if the request is rejected, the status is not a success, the response
    has no body or a read fails, then nothing is saved, however many
    chunks had arrived, and the success message is not set. *)
Theorem download_failure_saves_nothing api s quality net :
  download_completes net = false ->
  let t := trace (downloadMedia api s quality net) in
  saved_files t = []
  /\ success (run s t) = success s
  /\ metadata (run s t) = metadata s.
Proof.
  intros Hfail. cbv zeta. rewrite downloadMedia_eq. unfold trace. cbn [fst].
  change (?a :: ?b :: ?c :: ?d :: ?l) with ([a; b; c; d] ++ l).
  rewrite !saved_files_app, !run_app.
  unfold download_conclusion. destruct net as [r|e]; [|repeat split].
  cbn [download_completes] in Hfail.
  destruct (ok r); [|repeat split].
  destruct (body r) as [b|]; [|repeat split].
  unfold download_tail. destruct (ending b) as [u|e]; [discriminate|].
  rewrite saved_files_app, run_app, run_loop_trace.
  destruct (loop_trace_only_progress
              (parseInt10 (content_length r)) 0 (chunks b)) as [-> _].
  repeat split.
Qed.

Lemma download_failure_saves_nothing_witness :
  saved_files
    (trace (downloadMedia Sample.api Sample.fetched (lit "best")
              (Ok (Sample.media (Some (lit "10000"))
                     {| chunks := [Sample.zeros 4000];
                        ending := Throw (lit "network error") |}))))
  = [].
Proof.
  apply (download_failure_saves_nothing Sample.api Sample.fetched (lit "best")).
  reflexivity.
Defined.

(** X6.  When a read of the body fails, the chunks received so far are
    dropped and the progress is left at the value reported after the last
    chunk: it is neither reset to 0 nor set to 100.  (The byte counts are
    within the integers that doubles hold exactly.) *)
Theorem download_read_error_keeps_progress api s quality r b e :
  ok r = true ->
  body r = Some b ->
  ending b = Throw e ->
  exact_counts (parseInt10 (content_length r)) b ->
  let s' := run s (trace (downloadMedia api s quality (Ok r))) in
  progress s' = last (chunk_reports (parseInt10 (content_length r)) (chunks b)) 0
  /\ error s' = e
  /\ saved_files (trace (downloadMedia api s quality (Ok r))) = [].
Proof.
  intros Hok Hbody Hend _. cbv zeta. rewrite downloadMedia_eq.
  unfold trace, download_conclusion, download_tail. cbn [fst].
  rewrite Hok, Hbody, Hend.
  change (?a :: ?b :: ?c :: ?d :: ?l) with ([a; b; c; d] ++ l).
  rewrite !saved_files_app, !run_app, run_loop_trace.
  destruct (loop_trace_only_progress
              (parseInt10 (content_length r)) 0 (chunks b)) as [-> _].
  repeat split.
Qed.

(** 23 bytes of 40: the quotient 23/40 is the double just below 0.575,
    its product by 100 the double just below 57.5, and the progress stays
    at 57. *)
Lemma download_read_error_keeps_progress_witness :
  progress
    (run Sample.fetched
       (trace (downloadMedia Sample.api Sample.fetched (lit "best")
                 (Ok (Sample.media (Some (lit "40"))
                        {| chunks := [Sample.zeros 10; Sample.zeros 13];
                           ending := Throw (lit "network error") |})))))
  = 57.
Proof.
  assert (Hexact : exact_counts (parseInt10 (Some (lit "40")))
                     {| chunks := [Sample.zeros 10; Sample.zeros 13];
                        ending := Throw (lit "network error") |}).
  { vm_compute. split; discriminate. }
  destruct (download_read_error_keeps_progress Sample.api Sample.fetched
              (lit "best")
              (Sample.media (Some (lit "40"))
                 {| chunks := [Sample.zeros 10; Sample.zeros 13];
                    ending := Throw (lit "network error") |})
              {| chunks := [Sample.zeros 10; Sample.zeros 13];
                 ending := Throw (lit "network error") |}
              (lit "network error") eq_refl eq_refl eq_refl Hexact)
    as (Hp & _ & _).
  rewrite Hp. vm_compute. reflexivity.
Defined.

(** X7.  A download that reads the whole body and can form the name of
    the file (the title and the extension of the metadata convert to a
    text) ends with the progress at 100, the success message shown, the
    error cleared and [downloading] lowered; the inputs, the stored
    metadata and [loading] are as they were. *)
Theorem download_success_final_state api s quality r b :
  ok r = true ->
  body r = Some b ->
  ending b = Ok tt ->
  name_converts s = true ->
  run s (trace (downloadMedia api s quality (Ok r)))
  = {| mediaUrl := mediaUrl s; metadata := metadata s; loading := loading s;
       downloading := false; progress := 100; error := [];
       success := lit "Media archived successfully for the movement!";
       solidarityName := solidarityName s |}.
Proof.
  intros Hok Hbody Hend Hname. rewrite downloadMedia_eq.
  unfold trace, download_conclusion, download_tail. cbn [fst].
  rewrite Hok, Hbody, Hend, Hname.
  change (?a :: ?b :: ?c :: ?d :: ?l) with ([a; b; c; d] ++ l).
  rewrite !run_app, run_loop_trace. reflexivity.
Qed.

Lemma download_success_final_state_witness :
  progress
    (run Sample.fetched
       (trace (downloadMedia Sample.api Sample.fetched (lit "best")
                 (Ok (Sample.media None Sample.seven)))))
  = 100.
Proof.
  rewrite (download_success_final_state Sample.api Sample.fetched (lit "best")
             (Sample.media None Sample.seven) Sample.seven);
    reflexivity.
Defined.

(** ** Further properties of the exports *)

(** A computation that calls no setter, sends nothing and saves nothing. *)
Lemma bind_silent {A B} (m : M A) (k : A -> M B) :
  trace m = [] -> (forall a, trace (k a) = []) -> trace (bind m k) = [].
Proof.
  destruct m as [t [a|e]]; unfold trace; cbn [fst bind]; intros -> Hk.
  - specialize (Hk a). destruct (k a) as [t' r']. exact Hk.
  - reflexivity.
Qed.

Lemma toText_silent v : trace (toText v) = [].
Proof. unfold toText. destruct (converts v); reflexivity. Qed.

Lemma replace_quotes_silent v : trace (replace_quotes v) = [].
Proof. destruct v; reflexivity. Qed.

Lemma get_silent v k : trace (get v k) = [].
Proof. destruct v; reflexivity. Qed.

Lemma csv_lines_silent s now : trace (csv_lines s now) = [].
Proof.
  unfold csv_lines.
  repeat (apply bind_silent;
          [first [apply get_silent | apply toText_silent
                 | apply replace_quotes_silent]
          | intros ?]).
  reflexivity.
Qed.

Lemma downloadMetadataCSV_cases s now :
  downloadMetadataCSV s now = ([], Ok tt)
  \/ (exists message, downloadMetadataCSV s now = ([], Throw message))
  \/ exists name content,
       downloadMetadataCSV s now = ([SaveFile name content], Ok tt).
Proof.
  unfold downloadMetadataCSV.
  destruct (truthy (metadata s)) eqn:Ht; cbn [negb]; [|now left].
  pose proof (truthy_has_properties _ Ht) as Hp.
  pose proof (csv_lines_silent s now) as Hsilent.
  destruct (csv_lines s now) as [t [lines|e]]; unfold trace in Hsilent;
    cbn [fst] in Hsilent; subst t; cbn [bind app];
    [|right; left; eexists; reflexivity].
  rewrite (get_defined _ _ Hp). cbn [bind app]. unfold toText.
  destruct (converts (prop (metadata s) "platform")).
  - right. right. eexists. eexists. reflexivity.
  - right. left. eexists. reflexivity.
Qed.

Lemma export_json_observed s now :
  run s (trace (downloadMetadataJSON s now)) = s
  /\ requests (trace (downloadMetadataJSON s now)) = []
  /\ (List.length (saved_files (trace (downloadMetadataJSON s now))) <= 1)%nat.
Proof.
  destruct (truthy (metadata s)) eqn:Ht.
  - rewrite (downloadMetadataJSON_eq s now Ht).
    destruct (converts (prop (metadata s) "platform")); cbn; auto.
  - unfold downloadMetadataJSON. rewrite Ht. cbn. auto.
Qed.

Lemma export_csv_observed s now :
  run s (trace (downloadMetadataCSV s now)) = s
  /\ requests (trace (downloadMetadataCSV s now)) = []
  /\ (List.length (saved_files (trace (downloadMetadataCSV s now))) <= 1)%nat.
Proof.
  destruct (downloadMetadataCSV_cases s now)
    as [-> | [(message & ->) | (name & content & ->)]]; cbn; auto.
Qed.

(** X8.  The two exports work on the stored state only: they send no
    request and call no setter, so the component state after an export is
    the state before it, whether the export saved its file, returned at
    once or threw; and they save at most one file. *)
Theorem exports_touch_nothing s now :
  (run s (trace (downloadMetadataJSON s now)) = s
   /\ requests (trace (downloadMetadataJSON s now)) = []
   /\ (List.length (saved_files (trace (downloadMetadataJSON s now))) <= 1)%nat)
  /\ (run s (trace (downloadMetadataCSV s now)) = s
      /\ requests (trace (downloadMetadataCSV s now)) = []
      /\ (List.length (saved_files (trace (downloadMetadataCSV s now))) <= 1)%nat).
Proof.
  split; [apply export_json_observed | apply export_csv_observed].
Qed.

(** X9.  The CSV export needs a title that is a string or falsy: when the
    stored metadata has a truthy title of another type (a number, an
    object), the export throws a [TypeError] and saves nothing, while the
    JSON export of the same metadata saves its file (provided the
    platform, which names the file, converts to a text). *)
Theorem csv_export_throws_on_non_text_title s now :
  truthy (metadata s) = true ->
  truthy (prop (metadata s) "title") = true ->
  is_string (prop (metadata s) "title") = false ->
  (exists message, downloadMetadataCSV s now = ([], Throw message))
  /\ (converts (prop (metadata s) "platform") = true ->
      outcome (downloadMetadataJSON s now) = Ok tt
      /\ List.length (saved_files (trace (downloadMetadataJSON s now))) = 1%nat).
Proof.
  intros Ht Htitle Hstr. split.
  - unfold downloadMetadataCSV. rewrite Ht. cbn [negb].
    pose proof (truthy_has_properties _ Ht) as Hp.
    unfold csv_lines. rewrite !(get_defined _ _ Hp). cbn [bind ret app].
    unfold toText at 1.
    destruct (converts (js_or (prop (metadata s) "platform") (JStr (lit "unknown"))));
      [|eexists; reflexivity].
    cbn [bind ret app].
    unfold js_or at 1. rewrite Htitle.
    destruct (prop (metadata s) "title"); try discriminate;
      eexists; reflexivity.
  - intros Hplatform. rewrite (downloadMetadataJSON_eq s now Ht), Hplatform.
    split; reflexivity.
Qed.

Lemma csv_export_throws_on_non_text_title_witness :
  let s := apply Sample.fetched
             (SetMetadata (JObj [(lit "title", JNum 42)])) in
  let now := lit "2026-01-01T00:00:00.000Z" in
  (exists message, downloadMetadataCSV s now = ([], Throw message))
  /\ List.length (saved_files (trace (downloadMetadataJSON s now))) = 1%nat.
Proof.
  cbv zeta.
  destruct (csv_export_throws_on_non_text_title
              (apply Sample.fetched (SetMetadata (JObj [(lit "title", JNum 42)])))
              (lit "2026-01-01T00:00:00.000Z") eq_refl eq_refl eq_refl)
    as [Hcsv Hjson].
  split; [exact Hcsv | exact (proj2 (Hjson eq_refl))].
Defined.

(** The exception of the sample: the one of the call of [replace] on a
    number. *)
Example scenario_csv_export_numeric_title :
  downloadMetadataCSV
    (apply Sample.fetched (SetMetadata (JObj [(lit "title", JNum 42)])))
    (lit "2026-01-01T00:00:00.000Z")
  = ([], Throw (lit "(metadata.title || " ++ dq ++ dq
                ++ lit ").replace is not a function")).
Proof. vm_compute. reflexivity. Qed.

(** ** Sessions *)

Lemma fetchMetadata_decide api s net :
  (validated s
   /\ fetchMetadata api s net
      = ([SetLoading true; SetError []; SetSuccess []; SetMetadata JNull;
          metadata_request api s]
         ++ metadata_conclusion net ++ [SetLoading false], Ok tt))
  \/ (exists message, fetchMetadata api s net = ([SetError message], Ok tt)).
Proof.
  destruct (trim (mediaUrl s)) as [|c u] eqn:Hu.
  - right. destruct (fetchMetadata_blank api s net) as (m & H & _); eauto.
    intros [H _]. now apply H.
  - destruct (trim (solidarityName s)) as [|d n] eqn:Hn.
    + right. destruct (fetchMetadata_blank api s net) as (m & H & _); eauto.
      intros [_ H]. now apply H.
    + assert (Hv : validated s).
      { unfold validated. rewrite Hu, Hn. split; discriminate. }
      left. split; [exact Hv|]. exact (fetchMetadata_eq api s net Hv).
Qed.

Lemma saved_files_metadata_conclusion net :
  saved_files (metadata_conclusion net) = [].
Proof.
  destruct net as [r|e]; simpl; [|reflexivity].
  destruct (json r); [destruct (ok r)|]; reflexivity.
Qed.

Lemma fetchMetadata_observed api s net :
  saved_files (trace (fetchMetadata api s net)) = []
  /\ (requests (trace (fetchMetadata api s net)) = []
      \/ exists payload,
           requests (trace (fetchMetadata api s net))
           = [(api ++ lit "/metadata", payload)]).
Proof.
  destruct (fetchMetadata_decide api s net) as [[_ ->] | (m & ->)].
  - unfold trace. cbn [fst].
    change (?a :: ?b :: ?c :: ?d :: ?e :: ?l) with ([a; b; c; d; e] ++ l).
    rewrite !saved_files_app, !requests_app, saved_files_metadata_conclusion,
      requests_metadata_conclusion.
    split; [reflexivity|]. right. eexists. reflexivity.
  - split; [reflexivity | left; reflexivity].
Qed.

Lemma act_requests api s a :
  requests (act api s a) = []
  \/ exists url payload,
       requests (act api s a) = [(url, payload)] /\ endpoint api url.
Proof.
  destruct a as [v|v|net|net|net|now|now]; cbn [act].
  - now left.
  - now left.
  - destruct (fetchMetadata_observed api s net) as [_ [H | (p & H)]];
      [now left|]. right. exists (api ++ lit "/metadata"), p.
    split; [exact H | now left].
  - destruct (loading s); [now left|].
    destruct (fetchMetadata_observed api s net) as [_ [H | (p & H)]];
      [now left|]. right. exists (api ++ lit "/metadata"), p.
    split; [exact H | now left].
  - destruct (truthy (metadata s) && negb (downloading s)); [|now left].
    right. rewrite downloadMedia_always_sends. eexists. eexists.
    split; [reflexivity | now right].
  - destruct (truthy (metadata s)); [|now left].
    left. apply (export_json_observed s now).
  - destruct (truthy (metadata s)); [|now left].
    left. apply (export_csv_observed s now).
Qed.

Lemma session_cons api s a rest :
  session api s (a :: rest)
  = (act api s a ++ fst (session api (run s (act api s a)) rest),
     snd (session api (run s (act api s a)) rest)).
Proof.
  cbn [session]. destruct (session api (run s (act api s a)) rest). reflexivity.
Qed.

Lemma session_requests_observed api s actions :
  Forall (fun rq => endpoint api (fst rq))
    (requests (fst (session api s actions)))
  /\ (List.length (requests (fst (session api s actions)))
      <= List.length actions)%nat.
Proof.
  revert s. induction actions as [|a rest IH]; intros s.
  - split; [constructor | apply le_n].
  - rewrite session_cons. cbn [fst]. rewrite requests_app.
    destruct (IH (run s (act api s a))) as [IH1 IH2].
    destruct (act_requests api s a) as [-> | (url & payload & -> & Hurl)].
    + split; [exact IH1|]. cbn [app List.length]. lia.
    + split; [constructor; assumption|]. cbn [app List.length]. lia.
Qed.

(** X10.  Whatever the user does, every request of a session goes to one
    of the two endpoints, [API_BASE_URL/metadata] or
    [API_BASE_URL/download], and an action sends at most one request: no
    handler retries, and none contacts another address. *)
Theorem session_contacts_only_api api s actions :
  Forall (fun rq => endpoint api (fst rq))
    (requests (fst (session api s actions)))
  /\ (List.length (requests (fst (session api s actions)))
      <= List.length actions)%nat.
Proof. exact (session_requests_observed api s actions). Qed.

Lemma fetch_final_metadata api s net :
  validated s ->
  metadata (run s (trace (fetchMetadata api s net)))
  = match net with
    | Ok r =>
        match json r with
        | Ok data => if ok r then data else JNull
        | Throw _ => JNull
        end
    | Throw _ => JNull
    end.
Proof.
  intros Hv. rewrite (fetchMetadata_eq api s net Hv).
  unfold trace, metadata_conclusion. cbn [fst].
  destruct net as [r|e]; [|reflexivity].
  destruct (json r); [|reflexivity]. destruct (ok r); reflexivity.
Qed.

Lemma fruitless_fetch api s net :
  shows_metadata net = false ->
  truthy (metadata s) = false ->
  truthy (metadata (run s (trace (fetchMetadata api s net)))) = false.
Proof.
  intros Hnet Hs.
  destruct (fetchMetadata_decide api s net) as [[Hv _] | (m & ->)];
    [|exact Hs].
  rewrite (fetch_final_metadata api s net Hv).
  destruct net as [r|e]; [|reflexivity].
  cbn [shows_metadata] in Hnet.
  destruct (json r); [|reflexivity]. destruct (ok r); [exact Hnet|reflexivity].
Qed.

(** X11.  Until a fetch has brought metadata on screen, the session can
    neither download nor export: as long as every fetch fails, is
    rejected or returns a falsy value, no file is saved, no request goes
    to the download endpoint, and the metadata stays falsy. *)
Theorem nothing_saved_before_metadata api s actions :
  truthy (metadata s) = false ->
  Forall fruitless actions ->
  saved_files (fst (session api s actions)) = []
  /\ Forall (fun rq => fst rq = api ++ lit "/metadata")
       (requests (fst (session api s actions)))
  /\ truthy (metadata (snd (session api s actions))) = false.
Proof.
  intros Hs Hall. revert s Hs.
  induction Hall as [|a rest Ha Hrest IH]; intros s Hs.
  - repeat split; [constructor | exact Hs].
  - rewrite session_cons. cbn [fst snd].
    rewrite saved_files_app, requests_app.
    assert (Hact : saved_files (act api s a) = []
                   /\ Forall (fun rq => fst rq = api ++ lit "/metadata")
                        (requests (act api s a))
                   /\ truthy (metadata (run s (act api s a))) = false).
    { destruct a as [v|v|net|net|net|now|now]; cbn [act fruitless] in *.
      - repeat split; [constructor | exact Hs].
      - repeat split; [constructor | exact Hs].
      - destruct (fetchMetadata_observed api s net) as [Hf [Hr | (p & Hr)]];
          rewrite Hr; repeat split; auto using fruitless_fetch.
      - destruct (loading s);
          [repeat split; [constructor | exact Hs]|].
        destruct (fetchMetadata_observed api s net) as [Hf [Hr | (p & Hr)]];
          rewrite Hr; repeat split; auto using fruitless_fetch.
      - rewrite Hs. repeat split; [constructor | exact Hs].
      - rewrite Hs. repeat split; [constructor | exact Hs].
      - rewrite Hs. repeat split; [constructor | exact Hs]. }
    destruct Hact as (Hf & Hr & Hm).
    destruct (IH _ Hm) as (IHf & IHr & IHm).
    rewrite Hf, IHf. repeat split; [|exact IHm].
    apply Forall_app. split; assumption.
Qed.

Lemma nothing_saved_before_metadata_witness :
  let actions :=
    [ClickDownload (Ok (Sample.media None Sample.seven));
     ChangeUrl (lit "https://example.com/v/1");
     ChangeName (lit "Climate Justice");
     ClickFetch (Ok (Sample.failure 500 (Ok (JObj []))));
     ClickExportJSON (lit "2026-01-01T00:00:00.000Z");
     ClickDownload (Ok (Sample.media None Sample.seven))] in
  saved_files (fst (session Sample.api initial actions)) = []
  /\ List.length (requests (fst (session Sample.api initial actions))) = 1%nat.
Proof.
  cbv zeta. split; [|vm_compute; reflexivity].
  apply (nothing_saved_before_metadata Sample.api initial).
  - reflexivity.
  - repeat constructor.
Defined.

(** ** Decimal texts *)

Lemma lit_cons c s : lit (String c s) = N_of_ascii c :: lit s.
Proof. reflexivity. Qed.

Lemma string_of_uint_digits d :
  forallb is_digit (lit (NilEmpty.string_of_uint d)) = true.
Proof.
  induction d; cbn [NilEmpty.string_of_uint]; rewrite ?lit_cons;
    cbn [forallb]; rewrite ?IHd; reflexivity.
Qed.

Lemma string_of_uint_nonempty d :
  d <> Decimal.Nil -> lit (NilEmpty.string_of_uint d) <> [].
Proof. destruct d; try contradiction; intros _; discriminate. Qed.

(** The text of a natural number is a non-empty run of digits. *)
Lemma of_Z_digits z :
  0 <= z -> forallb is_digit (of_Z z) = true /\ of_Z z <> [].
Proof.
  intros Hz. unfold of_Z. destruct z as [|p|p]; [split; [reflexivity|discriminate]| |lia].
  cbn [Z.to_int NilZero.string_of_int]. unfold NilZero.string_of_uint.
  pose proof (DecimalPos.Unsigned.to_uint_nonnil p) as Hnn.
  destruct (Pos.to_uint p) eqn:E; try contradiction;
    rewrite <- E; (split; [apply string_of_uint_digits|]);
    apply string_of_uint_nonempty; rewrite E; discriminate.
Qed.

Lemma of_Z_negative z : z < 0 -> of_Z z = 45%N :: of_Z (- z).
Proof.
  intros Hz. destruct z as [|p|p]; try lia.
  unfold of_Z. cbn [Z.to_int Z.opp NilZero.string_of_int]. apply lit_cons.
Qed.




(** ** Reading the CSV export back *)













(** ** Reading a decimal text *)

Lemma digits_prefix_uint d : forall acc,
  digits_prefix (lit (NilEmpty.string_of_uint d)) acc true
  = Some (uint_value d acc).
Proof.
  induction d; intros acc; cbn [NilEmpty.string_of_uint uint_value];
    rewrite ?lit_cons; [reflexivity|..];
    (cbn [digits_prefix]; rewrite <- IHd; reflexivity).
Qed.

Lemma uint_value_pos d : forall acc,
  uint_value d (Zpos acc) = Zpos (Pos.of_uint_acc d acc).
Proof.
  induction d; intros acc; cbn [uint_value Pos.of_uint_acc]; [reflexivity|..];
    rewrite <- IHd; f_equal; lia.
Qed.

Lemma uint_value_zero d : uint_value d 0 = Z.of_N (Pos.of_uint d).
Proof.
  induction d; cbn [uint_value Pos.of_uint]; [reflexivity| exact IHd |..];
    exact (uint_value_pos d _).
Qed.

Lemma parseInt10_uint d :
  d <> Decimal.Nil ->
  parseInt10 (Some (lit (NilEmpty.string_of_uint d))) = Some (uint_value d 0).
Proof.
  destruct d; [contradiction|..]; intros _; cbn [uint_value];
    (etransitivity; [|apply digits_prefix_uint]); reflexivity.
Qed.

Lemma parseInt10_natural z : 0 <= z -> parseInt10 (Some (of_Z z)) = Some z.
Proof.
  intros Hz. destruct z as [|p|p]; [reflexivity| |lia].
  unfold of_Z. cbn [Z.to_int NilZero.string_of_int].
  unfold NilZero.string_of_uint.
  pose proof (DecimalPos.Unsigned.to_uint_nonnil p) as Hnn.
  pose proof (DecimalPos.Unsigned.of_to p) as Hval.
  destruct (Pos.to_uint p) eqn:E; try contradiction; rewrite <- E in *;
    rewrite (parseInt10_uint _ Hnn), uint_value_zero, Hval; reflexivity.
Qed.

(** ** A download whose length is declared exactly *)

Lemma received_length loaded incoming :
  List.length (received loaded incoming) = List.length incoming.
Proof.
  revert loaded. induction incoming as [|v incoming IH]; intros loaded;
    [reflexivity|]. cbn [received List.length]. now rewrite IH.
Qed.

Lemma received_last incoming : forall loaded d,
  incoming <> [] ->
  last (received loaded incoming) d = loaded + total_bytes incoming.
Proof.
  induction incoming as [|v incoming IH]; intros loaded d Hne; [contradiction|].
  destruct incoming as [|w incoming].
  - cbn. lia.
  - change (received loaded (v :: w :: incoming))
      with ((loaded + blen v) :: received (loaded + blen v) (w :: incoming)).
    change (last (?x :: received ?l (w :: incoming)) d)
      with (last (received l (w :: incoming)) d).
    rewrite IH by discriminate.
    change (total_bytes (v :: w :: incoming))
      with (blen v + total_bytes (w :: incoming)).
    lia.
Qed.

Lemma last_map_nonempty {A B} (f : A -> B) (l : list A) (d : A) (e : B) :
  l <> [] -> last (map f l) e = f (last l d).
Proof.
  induction l as [|x l IH]; intros Hne; [contradiction|].
  destruct l as [|y l]; [reflexivity|].
  change (last (map f (x :: y :: l)) e) with (last (map f (y :: l)) e).
  change (last (x :: y :: l) d) with (last (y :: l) d).
  apply IH. discriminate.
Qed.

(** X13.  When the server declares the length of the body exactly (the
    Content-Length header is the decimal text of the number of bytes that
    arrive, and that number is positive and at most 2^53), one progress
    value is reported per chunk, each within [0,100], and the one after
    the last chunk is 100; the closing report of 100 follows when the file
    has been offered. *)
Theorem download_exact_length_reaches_100 api s quality r b n :
  ok r = true ->
  body r = Some b ->
  chunks b <> [] ->
  total_bytes (chunks b) = n ->
  0 < n <= 2 ^ 53 ->
  content_length r = Some (of_Z n) ->
  let reports := chunk_reports (parseInt10 (content_length r)) (chunks b) in
  progress_reports (trace (downloadMedia api s quality (Ok r)))
  = 0 :: reports ++ final_report s b
  /\ List.length reports = List.length (chunks b)
  /\ Forall in_range reports
  /\ last reports 0 = 100.
Proof.
  intros Hok Hbody Hne Hn [Hpos _] Hlen. cbv zeta.
  split; [exact (download_reports api s quality r b Hok Hbody)|].
  rewrite Hlen, (parseInt10_natural n) by lia.
  unfold chunk_reports, known.
  destruct (Z.eqb_spec n 0) as [|_]; [lia|]. cbn [negb].
  split; [now rewrite length_map, received_length|]. split.
  - rewrite <- (app_nil_r (map _ _)).
    apply (reports_in_range n Hpos []); [constructor | lia | lia].
  - rewrite (last_map_nonempty _ _ 0).
    + rewrite (received_last _ 0 0 Hne), Z.add_0_l, Hn. now apply percent_full.
    + destruct (chunks b); [contradiction | discriminate].
Qed.

(** 40 bytes in chunks of 23 and 17: 57 after the first chunk (the
    product of the doubles is just below 57.5), 100 after the second, and
    the closing 100. *)
Lemma download_exact_length_reaches_100_witness :
  progress_reports
    (trace (downloadMedia Sample.api Sample.fetched (lit "best")
              (Ok (Sample.media (Some (lit "40")) Sample.uneven))))
  = [0; 57; 100; 100]
  /\ last (chunk_reports (parseInt10 (Some (lit "40"))) (chunks Sample.uneven)) 0
     = 100.
Proof.
  assert (Hne : chunks Sample.uneven <> []) by discriminate.
  assert (Hpos : 0 < 40 <= 2 ^ 53) by (split; [reflexivity | discriminate]).
  destruct (download_exact_length_reaches_100 Sample.api Sample.fetched
              (lit "best") (Sample.media (Some (lit "40")) Sample.uneven)
              Sample.uneven 40 eq_refl eq_refl Hne eq_refl Hpos eq_refl)
    as (Hreports & _ & _ & Hlast).
  split; [|exact Hlast].
  rewrite Hreports. vm_compute. reflexivity.
Defined.

(** ** The formatters on numbers *)

Lemma padStart2_table :
  forallb (fun r => JsString.eqb (padStart2 (of_Z r)) (two_digits r))
    (map Z.of_nat (seq 0 100))
  = true.
Proof. vm_compute. reflexivity. Qed.

Lemma padStart2_two_digits r :
  0 <= r < 100 -> padStart2 (of_Z r) = two_digits r.
Proof.
  intros Hr. apply eqb_eq.
  apply (proj1 (forallb_forall _ _) padStart2_table).
  apply in_map_iff. exists (Z.to_nat r). split; [lia|].
  apply in_seq. lia.
Qed.

(** X14.  For a positive whole number of seconds below 2^53,
    [formatDuration] writes the minutes (not folded into hours), a colon
    and the remaining seconds on exactly two digits; minutes times 60 plus
    those seconds is the duration, and the minutes are the integer part of
    the quotient by 60 as the code computes it, in doubles. *)
Theorem formatDuration_positive z :
  0 < z < 2 ^ 53 ->
  let mins := z / 60 in
  let secs := z mod 60 in
  formatDuration (JNum z)
  = Some (of_Z mins ++ lit ":" ++ two_digits secs)
  /\ 0 <= secs < 60
  /\ 60 * mins + secs = z
  /\ forallb is_digit (of_Z mins) = true
  /\ Qfloor (Double.round (inject_Z z / 60)) = mins.
Proof.
  intros [Hz Hz53]. cbv zeta.
  pose proof (Z.mod_pos_bound z 60 ltac:(lia)) as Hmod.
  split; [|split; [exact Hmod|split; [|split]]];
    [| | |apply floor_quotient_60; lia].
  - unfold formatDuration. cbn [truthy].
    destruct (Z.eqb_spec z 0) as [|_]; [lia|]. cbn [negb].
    rewrite Z.rem_mod_nonneg by lia.
    rewrite padStart2_two_digits by lia. reflexivity.
  - pose proof (Z.div_mod z 60 ltac:(lia)). lia.
  - apply of_Z_digits. apply Z.div_pos; lia.
Qed.

Lemma formatDuration_positive_witness :
  formatDuration (JNum 3725) = Some (lit "62:05").
Proof.
  destruct (formatDuration_positive 3725) as [H _];
    [split; [reflexivity | reflexivity]|].
  rewrite H. vm_compute. reflexivity.
Defined.

Lemma log2_bounds z i :
  0 < z -> i = Z.log2 z / 10 ->
  0 <= i /\ 2 ^ (10 * i) <= z < 2 ^ (10 * i + 10).
Proof.
  intros Hz Hi.
  pose proof (Z.log2_nonneg z) as Hl.
  pose proof (Z.log2_spec z Hz) as [Hlo Hhi].
  pose proof (Z.div_mod (Z.log2 z) 10 ltac:(lia)) as Hdm.
  pose proof (Z.mod_pos_bound (Z.log2 z) 10 ltac:(lia)) as Hm.
  assert (Hi0 : 0 <= i) by (subst i; apply Z.div_pos; lia).
  split; [exact Hi0|]. rewrite <- Hi in Hdm. split.
  - eapply Z.le_trans; [|exact Hlo]. apply Z.pow_le_mono_r; lia.
  - eapply Z.lt_le_trans; [exact Hhi|]. apply Z.pow_le_mono_r; lia.
Qed.



(** X16.  Below one tebibyte a positive size is shown in the largest unit
    of Bytes, KB, MB, GB that does not exceed it, as a number with two
    decimals between 1.00 and 1024.00: the size divided by the unit and
    rounded to hundredths. *)
Theorem formatFileSize_in_table z :
  0 < z < 2 ^ 40 ->
  exists i hundredths,
    0 <= i < 4
    /\ 1024 ^ i <= z < 1024 ^ (i + 1)
    /\ hundredths = (200 * z + 1024 ^ i) / (2 * 1024 ^ i)
    /\ 100 <= hundredths <= 102400
    /\ formatFileSize (JNum z)
       = Some (of_Z (hundredths / 100) ++ lit "."
               ++ two_digits (hundredths mod 100) ++ lit " "
               ++ lit (nth (Z.to_nat i) sizes ""%string)).
Proof.
  intros [Hpos Hlt].
  destruct (log2_bounds z (Z.log2 z / 10) Hpos eq_refl) as (Hi0 & Hlo & Hhi).
  set (i := Z.log2 z / 10) in *.
  assert (Hi4 : i < 4).
  { destruct (Z.lt_ge_cases i 4) as [|Hge]; [assumption|exfalso].
    assert (2 ^ 40 <= 2 ^ (10 * i)) by (apply Z.pow_le_mono_r; lia). lia. }
  assert (Hpow : 2 ^ (10 * i) = 1024 ^ i).
  { rewrite Z.pow_mul_r by lia. reflexivity. }
  assert (Hpow' : 2 ^ (10 * i + 10) = 1024 ^ (i + 1)).
  { replace (10 * i + 10) with (10 * (i + 1)) by lia.
    rewrite Z.pow_mul_r by lia. reflexivity. }
  assert (Hu : 0 < 1024 ^ i) by (apply Z.pow_pos_nonneg; lia).
  assert (Hnext : 1024 ^ (i + 1) = 1024 * 1024 ^ i).
  { rewrite Z.pow_add_r by lia. lia. }
  set (u := 1024 ^ i) in *.
  set (h := (200 * z + u) / (2 * u)).
  assert (Hh : 100 <= h <= 102400).
  { subst h. split.
    - apply Z.div_le_lower_bound; lia.
    - assert ((200 * z + u) / (2 * u) < 102401); [|lia].
      apply Z.div_lt_upper_bound; lia. }
  exists i, h. split; [lia|]. split; [lia|]. split; [reflexivity|].
  split; [exact Hh|].
  unfold formatFileSize. cbn [truthy].
  destruct (Z.eqb_spec z 0) as [|_]; [lia|]. cbn [negb].
  destruct (Z.ltb_spec z 0) as [|_]; [lia|].
  fold i. rewrite Hpow. fold u. unfold toFixed2. fold h.
  rewrite padStart2_two_digits by (apply Z.mod_pos_bound; lia).
  assert (Hunit : nth (Z.to_nat i) sizes "undefined"%string
                  = nth (Z.to_nat i) sizes ""%string).
  { assert (Hcases : i = 0 \/ i = 1 \/ i = 2 \/ i = 3) by lia.
    destruct Hcases as [E | [E | [E | E]]]; rewrite E; reflexivity. }
  rewrite Hunit, <- !app_assoc. reflexivity.
Qed.

Lemma formatFileSize_in_table_witness :
  exists i hundredths,
    0 <= i < 4
    /\ 1024 ^ i <= 1572864 < 1024 ^ (i + 1)
    /\ hundredths = (200 * 1572864 + 1024 ^ i) / (2 * 1024 ^ i)
    /\ 100 <= hundredths <= 102400
    /\ formatFileSize (JNum 1572864)
       = Some (of_Z (hundredths / 100) ++ lit "."
               ++ two_digits (hundredths mod 100) ++ lit " "
               ++ lit (nth (Z.to_nat i) sizes ""%string)).
Proof.
  apply (formatFileSize_in_table 1572864).
  split; [lia | vm_compute; reflexivity].
Defined.

(** ** The address of the service *)

Lemma startsWith_app prefix rest : startsWith (prefix ++ rest) prefix = true.
Proof.
  induction prefix as [|p prefix IH]; [reflexivity|].
  cbn [app startsWith]. now rewrite N.eqb_refl, IH.
Qed.

(** X17.  On a host named localhost or 127.0.0.1, and on every host whose
    name begins with 192.168. (whatever follows), the service address is
    http://localhost:5000/api and a configured VITE_API_URL is ignored;
    on any other host the configured address is used when it is set, and
    the public default otherwise. *)
Theorem api_base_url_selection hostname suffix env :
  API_BASE_URL (lit "192.168." ++ suffix) env = lit "http://localhost:5000/api"
  /\ API_BASE_URL (lit "localhost") env = lit "http://localhost:5000/api"
  /\ API_BASE_URL (lit "127.0.0.1") env = lit "http://localhost:5000/api"
  /\ (isLocal hostname = false ->
      API_BASE_URL hostname env
      = if truthy env then ToString env ++ lit "/api"
        else lit "https://solidarity-media-api.onrender.com/api").
Proof.
  split; [|split; [reflexivity|split; [reflexivity|]]].
  - unfold API_BASE_URL, getApiBaseUrl, isLocal.
    rewrite startsWith_app, !orb_true_r. reflexivity.
  - intros Hlocal. unfold API_BASE_URL, getApiBaseUrl. rewrite Hlocal.
    destruct (truthy env); reflexivity.
Qed.

Lemma api_base_url_selection_witness :
  API_BASE_URL (lit "solidarity.example.org")
    (JStr (lit "https://api.example.org"))
  = lit "https://api.example.org/api"
  /\ API_BASE_URL (lit "192.168.example.org")
       (JStr (lit "https://api.example.org"))
     = lit "http://localhost:5000/api".
Proof.
  destruct (api_base_url_selection (lit "solidarity.example.org")
              (lit "example.org") (JStr (lit "https://api.example.org")))
    as (Hprefix & _ & _ & Hother).
  split; [exact (Hother eq_refl) | exact Hprefix].
Defined.

(** ** The guarded parts of the page *)

Lemma of_Z_head z :
  exists c rest, of_Z z = c :: rest /\ (is_digit c = true \/ c = 45%N).
Proof.
  destruct (Z.lt_ge_cases z 0) as [Hneg | Hpos].
  - rewrite (of_Z_negative z Hneg). eauto.
  - destruct (of_Z_digits z Hpos) as [Hd Hne].
    destruct (of_Z z) as [|c rest]; [contradiction|].
    cbn [forallb] in Hd. apply andb_true_iff in Hd. destruct Hd. eauto.
Qed.

Lemma starts_with_number z rest (word : string) c w :
  lit word = c :: w -> is_digit c = false -> c <> 45%N ->
  of_Z z ++ rest <> lit word.
Proof.
  intros Hw Hd Hm. destruct (of_Z_head z) as (c0 & r & -> & Hc).
  rewrite Hw. cbn [app]. intros E. injection E as E _. subst c0.
  destruct Hc; congruence.
Qed.

(** X18.  The page calls [formatDuration] and [formatFileSize] only behind
    [metadata.duration && ...] and [metadata.size && ...], so their texts
    for a missing value, N/A and Unknown, never reach the page; and
    behind such a guard a count, duration or size of 0 is not hidden: the
    page shows the digit 0 in place of the card. *)
Theorem page_never_shows_fallback_texts toLocaleString m :
  duration_card m <> Block (Some (lit "N/A"))
  /\ size_info m <> Block (Some (lit "Unknown"))
  /\ (prop m "duration" = JNum 0 -> duration_card m = Digits (lit "0"))
  /\ (prop m "size" = JNum 0 -> size_info m = Digits (lit "0"))
  /\ (prop m "viewCount" = JNum 0 -> views_card toLocaleString m = Digits (lit "0"))
  /\ (prop m "likeCount" = JNum 0 -> likes_card toLocaleString m = Digits (lit "0")).
Proof.
  split; [|split; [|repeat split; intros H;
                    unfold duration_card, size_info, views_card, likes_card;
                    rewrite H; reflexivity]].
  - unfold duration_card, and_block.
    destruct (truthy (prop m "duration")) eqn:Ht;
      [|destruct (prop m "duration"); discriminate].
    unfold formatDuration. rewrite Ht. cbn [negb].
    destruct (prop m "duration"); try discriminate.
    intros E. injection E as E. revert E.
    apply (starts_with_number _ _ "N/A" 78%N (lit "/A")); [reflexivity..|].
    discriminate.
  - unfold size_info, and_block.
    destruct (truthy (prop m "size")) eqn:Ht;
      [|destruct (prop m "size"); discriminate].
    unfold formatFileSize. rewrite Ht. cbn [negb].
    destruct (prop m "size"); try discriminate.
    destruct (z <? 0); [intros E; injection E as E; vm_compute in E; discriminate|].
    intros E. injection E as E. revert E. unfold toFixed2.
    rewrite <- !app_assoc.
    apply (starts_with_number _ _ "Unknown" 85%N (lit "nknown")); [reflexivity..|].
    discriminate.
Qed.

(** X19.  The fetch does not look at what the service returned: a success
    response whose body is a falsy JSON value (null, 0, false, the empty
    string) is stored and announced with the success message like any
    other, and since the page shows the media card only for truthy
    metadata, the message stands alone, with no card and with the
    download and export buttons out of reach. *)
Theorem falsy_metadata_announced_without_card api s r data a :
  validated s ->
  ok r = true ->
  json r = Ok data ->
  truthy data = false ->
  let s' := run s (trace (fetchMetadata api s (Ok r))) in
  success s' = lit "Media information loaded successfully!"
  /\ error s' = []
  /\ metadata s' = data
  /\ (match a with
      | ClickDownload _ | ClickExportJSON _ | ClickExportCSV _ => act api s' a = []
      | _ => True
      end).
Proof.
  intros Hv Hok Hjson Hfalsy. cbv zeta.
  rewrite (fetchMetadata_eq api s (Ok r) Hv).
  unfold trace, metadata_conclusion. cbn [fst]. rewrite Hjson, Hok.
  repeat split.
  destruct a; try exact I; cbn [act run fold_left app apply metadata];
    rewrite Hfalsy; reflexivity.
Qed.

Lemma falsy_metadata_announced_without_card_witness :
  let r := {| status := 200; content_length := None; json := Ok JNull;
              body := None |} in
  let s' := run Sample.filled
              (trace (fetchMetadata Sample.api Sample.filled (Ok r))) in
  success s' = lit "Media information loaded successfully!"
  /\ act Sample.api s' (ClickDownload (Ok (Sample.media None Sample.seven))) = [].
Proof.
  cbv zeta.
  destruct (falsy_metadata_announced_without_card Sample.api Sample.filled
              {| status := 200; content_length := None; json := Ok JNull;
                 body := None |}
              JNull (ClickDownload (Ok (Sample.media None Sample.seven))))
    as (Hs & _ & _ & Ha); try reflexivity.
  - split; vm_compute; discriminate.
  - split; [exact Hs | exact Ha].
Defined.

Lemma page_never_shows_fallback_texts_witness :
  let m := JObj [(lit "title", JStr (lit "Rally")); (lit "duration", JNum 0)] in
  duration_card m = Digits (lit "0")
  /\ duration_card m <> Block (Some (lit "N/A")).
Proof.
  cbv zeta.
  destruct (page_never_shows_fallback_texts (fun z => of_Z z)
              (JObj [(lit "title", JStr (lit "Rally")); (lit "duration", JNum 0)]))
    as (Hnever & _ & Hzero & _).
  split; [exact (Hzero eq_refl) | exact Hnever].
Defined.
